(** * bip39-lastword: the twelfth BIP39 word from the first eleven

    A shallow embedding of [src/bip39-lastword.py] and of its sibling
    [src/tools/bip39-lastword.py], and the properties of the enumeration
    that the specification states.

    Python values are modelled as follows: [int] is [Z]; [str] is
    [string] (a sequence of bytes, read as ASCII text: the BIP39 English
    wordlist and every string the program builds are ASCII); [bytes] is
    [list byte]; a [list] is a [list]; the dictionary [word2idx] is a
    [gmap string Z]; a raised exception is the [Raise] branch of
    [result]. *)

From Stdlib Require Import ZArith Ascii String DecimalString Lia.
From Stdlib.Strings Require Import Byte.
From stdpp Require Import gmap strings list.

Local Open Scope Z_scope.

(** ** Exceptions and the error monad *)

Inductive exn : Type :=
| ValueError (msg : string)
| RuntimeError (msg : string)
| KeyError (key : string)
| IndexError
| OverflowError.

Inductive result (A : Type) : Type :=
| Ok (a : A)
| Raise (e : exn).
Arguments Ok {A} a.
Arguments Raise {A} e.

#[global] Instance result_ret : MRet result := fun A a => Ok a.
#[global] Instance result_bind : MBind result := fun A B f m =>
  match m with
  | Ok a => f a
  | Raise e => Raise e
  end.

Definition is_ok {A} (r : result A) : bool :=
  match r with Ok _ => true | Raise _ => false end.

(** ** The Python primitives the program uses *)

Module Py.

(** [s1 + s2] on [str]; [len(s)]. *)
Definition str_len (s : string) : nat := String.length s.

(** Binary digits of a positive number, most significant first. *)
Fixpoint pos_bin (p : positive) (acc : string) : string :=
  match p with
  | xH => String "1" acc
  | xO p' => pos_bin p' (String "0" acc)
  | xI p' => pos_bin p' (String "1" acc)
  end.

Definition bin_digits (n : Z) : string :=
  match n with
  | Z0 => "0"
  | Zpos p => pos_bin p ""
  | Zneg p => pos_bin p ""
  end.

Fixpoint zeros (k : nat) : string :=
  match k with
  | O => ""
  | S k' => String "0" (zeros k')
  end.

(** [f"{n:0{width}b}"]: binary digits, zero-filled on the left up to
    [width] characters (never truncated); the sign counts in the width. *)
Definition format_b (width : nat) (n : Z) : string :=
  let d := bin_digits n in
  if n <? 0
  then String "-" (zeros (width - 1 - str_len d) +:+ d)
  else zeros (width - str_len d) +:+ d.

(** [int(s, 2)] on a string of binary digits.  The program only parses
    strings it built from [format_b]; on any other character, and on the
    empty string, Python raises [ValueError]. *)
Fixpoint int2_digits (s : string) (acc : Z) : option Z :=
  match s with
  | EmptyString => Some acc
  | String c s' =>
      if Ascii.eqb c "0" then int2_digits s' (2 * acc)
      else if Ascii.eqb c "1" then int2_digits s' (2 * acc + 1)
      else None
  end.

Definition int_base2 (s : string) : result Z :=
  match s with
  | EmptyString => Raise (ValueError "invalid literal for int() with base 2")
  | _ =>
      match int2_digits s 0 with
      | Some n => Ok n
      | None => Raise (ValueError "invalid literal for int() with base 2")
      end
  end.

Definition byte_of_Z (z : Z) : byte :=
  match Byte.of_N (Z.to_N (z mod 256)) with
  | Some b => b
  | None => x00
  end.

Definition Z_of_byte (b : byte) : Z := Z.of_N (Byte.to_N b).

(** Big-endian bytes of [n]: byte [j] of [len] is
    [(n >> 8*(len-1-j)) & 0xff]. *)
Fixpoint bytes_be (len : nat) (n : Z) : list byte :=
  match len with
  | O => []
  | S len' => byte_of_Z (n / 2 ^ (8 * Z.of_nat len')) :: bytes_be len' n
  end.

(** [n.to_bytes(len, "big")]: [OverflowError] for a negative [n] and for
    an [n] that does not fit. *)
Definition to_bytes (len : nat) (n : Z) : result (list byte) :=
  if (0 <=? n) && (n <? 2 ^ (8 * Z.of_nat len))
  then Ok (bytes_be len n)
  else Raise OverflowError.

(** [l[i]], with Python's negative indices. *)
Definition getitem {A} (l : list A) (i : Z) : result A :=
  let n := Z.of_nat (length l) in
  let j := if i <? 0 then i + n else i in
  if (0 <=? j) && (j <? n)
  then match l !! Z.to_nat j with
       | Some a => Ok a
       | None => Raise IndexError
       end
  else Raise IndexError.

(** [sep.join(l)]. *)
Fixpoint join (sep : string) (l : list string) : string :=
  match l with
  | [] => ""
  | [w] => w
  | w :: l' => w +:+ sep +:+ join sep l'
  end.

(** [str(n)] for an [int]. *)
Definition str_of_Z (n : Z) : string :=
  NilZero.string_of_int (Z.to_int n).

(** [range(n)]. *)
Definition range (n : nat) : list Z := Z.of_nat <$> seq 0 n.

(** [enumerate(l)]. *)
Definition enumerate {A} (l : list A) : list (Z * A) :=
  imap (fun i a => (Z.of_nat i, a)) l.

Fixpoint contains (c : ascii) (s : string) : bool :=
  match s with
  | EmptyString => false
  | String d s' => Ascii.eqb c d || contains c s'
  end.

Definition squote : ascii := "'".
Definition dquote : ascii := ascii_of_N 34.

Definition hex_digit (n : N) : ascii :=
  if (n <? 10)%N then ascii_of_N (48 + n) else ascii_of_N (87 + n).

(** One character of [repr(s)], for the chosen quote, on ASCII text.
    A byte above 127 is kept as it is, which is what [repr] does on a
    printable non-ASCII character only: the properties that read the
    result of [repr] are stated on ASCII strings. *)
Definition repr_char (quote c : ascii) : string :=
  let n := N_of_ascii c in
  if Ascii.eqb c quote || Ascii.eqb c "\" then String "\" (String c "")
  else if (n =? 9)%N then "\t"
  else if (n =? 10)%N then "\n"
  else if (n =? 13)%N then "\r"
  else if (n <? 32)%N || (n =? 127)%N
       then String "\" (String "x"
              (String (hex_digit (n / 16)) (String (hex_digit (n mod 16)) "")))
  else String c "".

Fixpoint repr_body (quote : ascii) (s : string) : string :=
  match s with
  | EmptyString => ""
  | String c s' => repr_char quote c +:+ repr_body quote s'
  end.

(** [repr(s)] for a [str]: single quotes, unless the string has a single
    quote and no double quote. *)
Definition repr (s : string) : string :=
  let quote : ascii :=
    if contains squote s && negb (contains dquote s) then dquote else squote in
  String quote (repr_body quote s +:+ String quote "").

(** [str(e)] for a [KeyError] with one argument is the [repr] of the key. *)
Definition str_KeyError (key : string) : string := repr key.

Fixpoint lstrip (c : ascii) (s : string) : string :=
  match s with
  | EmptyString => ""
  | String d s' => if Ascii.eqb c d then lstrip c s' else s
  end.

Fixpoint rstrip (c : ascii) (s : string) : string :=
  match s with
  | EmptyString => ""
  | String d s' =>
      match rstrip c s' with
      | EmptyString => if Ascii.eqb c d then "" else String d ""
      | r => String d r
      end
  end.

(** [s.strip(c)] for a one-character set. *)
Definition strip (c : ascii) (s : string) : string := rstrip c (lstrip c s).

(** Whitespace, as [str.isspace] has it on ASCII characters.  The
    whitespace characters beyond ASCII are not known here: the
    properties that read the words of a split are stated on ASCII
    strings. *)
Definition is_space (c : ascii) : bool :=
  let n := N_of_ascii c in
  ((9 <=? n)%N && (n <=? 13)%N) || ((28 <=? n)%N && (n <=? 32)%N).

(** [s.split()]: the maximal runs of non-whitespace. [cur] is the run
    being read, reversed. *)
Fixpoint split_ws_go (s : string) (cur : list ascii) : list string :=
  let flush (rest : list string) :=
    match cur with
    | [] => rest
    | _ => string_of_list_ascii (rev cur) :: rest
    end in
  match s with
  | EmptyString => flush []
  | String c s' =>
      if is_space c then flush (split_ws_go s' [])
      else split_ws_go s' (c :: cur)
  end.

Definition split_ws (s : string) : list string := split_ws_go s [].

(** [s.split(sep)] for a one-character separator. *)
Fixpoint split_on_go (sep : ascii) (s : string) (cur : list ascii) : list string :=
  match s with
  | EmptyString => [string_of_list_ascii (rev cur)]
  | String c s' =>
      if Ascii.eqb c sep
      then string_of_list_ascii (rev cur) :: split_on_go sep s' []
      else split_on_go sep s' (c :: cur)
  end.

Definition split_on (sep : ascii) (s : string) : list string :=
  split_on_go sep s [].

End Py.

(** ** The collaborators

    [Mnemonic] is the object of the [mnemonic] package the program is
    handed (or builds with [Mnemonic("english")]): the program reads its
    [wordlist] and calls its [check].  [hashlib.sha256(b).digest()] is the
    function [sha256] below. *)

Record Mnemonic : Type := {
  wordlist : list string;
  check : string -> bool
}.

(** A candidate is the tuple [(tail, last_index, last_word, ok)]. *)
Definition candidate : Type := Z * Z * string * bool.

Definition cand_tail (c : candidate) : Z := c.1.1.1.
Definition cand_index (c : candidate) : Z := c.1.1.2.
Definition cand_word (c : candidate) : string := c.1.2.
Definition cand_ok (c : candidate) : bool := c.2.

(** [{w: i for i, w in enumerate(wl)}]: a later entry overwrites an
    earlier one with the same word. *)
Definition word2idx_of (wl : list string) : gmap string Z :=
  foldl (fun m iw => <[iw.2 := iw.1]> m) ∅ (Py.enumerate wl).

(** [[word2idx[w] for w in ws]]: the first missing key raises
    [KeyError]. *)
Fixpoint lookup_all (word2idx : gmap string Z) (ws : list string)
  : result (list Z) :=
  match ws with
  | [] => Ok []
  | w :: ws' =>
      match word2idx !! w with
      | Some i => rest ← lookup_all word2idx ws'; Ok (i :: rest)
      | None => Raise (KeyError w)
      end
  end.

(** A [for] loop over [l] that threads the state [st] and stops at the
    first exception. *)
Fixpoint for_each {A S} (body : S -> A -> result S) (st : S) (l : list A)
  : result S :=
  match l with
  | [] => Ok st
  | a :: l' => st' ← body st a; for_each body st' l'
  end.

(** [str(e)] for the exceptions of this program. *)
Definition str_exn (e : exn) : string :=
  match e with
  | ValueError msg => msg
  | RuntimeError msg => msg
  | KeyError key => Py.str_KeyError key
  | IndexError => "list index out of range"
  | OverflowError => "int too big to convert"
  end.

(** What a run of [main] leaves behind: the lines printed on each stream
    and how it ended, by [return v] or by an exception nobody caught. *)
Inductive ending : Type :=
| Returned (v : option Z)
| Uncaught (e : exn).

Record run : Type := {
  stdout : list string;
  stderr : list string;
  ended : ending
}.

Definition msg_count (n : nat) : string :=
  "Expected exactly 11 words, got " +:+ Py.str_of_Z (Z.of_nat n) +:+ ".".
Definition msg_word (bad : string) : string :=
  "Word not in BIP39 English wordlist: '" +:+ bad +:+ "'".
Definition msg_bits : string :=
  "Internal error: expected 121 bits from 11 words.".
Definition msg_check : string :=
  "Unexpected: generated mnemonic failed BIP39 check.".

Section Program.

Variable sha256 : list byte -> list byte.

(** The [try] block around the index lookup: a [KeyError] becomes a
    [ValueError] that names [str(e).strip("'")]. *)
Definition lookup_indices (word2idx : gmap string Z) (words11 : list string)
  : result (list Z) :=
  match lookup_all word2idx words11 with
  | Raise (KeyError key) =>
      let bad := Py.strip Py.squote (Py.str_KeyError key) in
      Raise (ValueError (msg_word bad))
  | r => r
  end.

(** [src/bip39-lastword.py], [all_last_words_from_11]. *)
Definition all_last_words_from_11 (mnemo : Mnemonic) (words11 : list string)
  : result (list candidate) :=
  if negb (length words11 =? 11)%nat
  then Raise (ValueError (msg_count (length words11)))
  else
    let word2idx := word2idx_of (wordlist mnemo) in
    idxs ← lookup_indices word2idx words11;
    let bits121 := Py.join "" (Py.format_b 11 <$> idxs) in
    if negb (Py.str_len bits121 =? 121)%nat
    then Raise (RuntimeError msg_bits)
    else
      for_each
        (fun (out : list candidate) (tail : Z) =>
           let entropy_bits := bits121 +:+ Py.format_b 7 tail in
           n ← Py.int_base2 entropy_bits;
           entropy_bytes ← Py.to_bytes 16 n;
           d0 ← Py.getitem (sha256 entropy_bytes) 0;
           let checksum4 := Z.shiftr (Py.Z_of_byte d0) 4 in
           let last_index := Z.lor (Z.shiftl tail 4) checksum4 in
           last_word ← Py.getitem (wordlist mnemo) last_index;
           let phrase := Py.join " " (words11 ++ [last_word]) in
           let ok := check mnemo phrase in
           Ok (out ++ [(tail, last_index, last_word, ok)]))
        [] (Py.range 128).

(** [normalize_words_arg], the same in both files: a single argument is
    split on whitespace ([strip()] before [split()] changes nothing, since
    [split()] drops leading and trailing whitespace). *)
Definition normalize_words_arg (words_arg : list string) : list string :=
  if (length words_arg =? 1)%nat
  then match words_arg with
       | w :: _ => Py.split_ws w
       | [] => []
       end
  else words_arg.

Section Main.

(** The object [Mnemonic("english")] builds. *)
Variable english : Mnemonic.

(** [src/bip39-lastword.py], [main], from [args.words] on: the argument
    is the list [parse_args()] returns for [words], which [nargs="+"]
    never leaves empty.  What [argparse] does before is not part of this
    definition (it exits on an empty command line, on [-h] and on an
    unknown option, and takes [--valid-only] and [--all] out of the
    words; [main] never reads these two flags). *)
Definition main (args_words : list string) : run :=
  let words11 := normalize_words_arg args_words in
  let mnemo := english in
  match all_last_words_from_11 mnemo words11 with
  | Raise e =>
      {| stdout := [];
         stderr := ["[bip39-lastword] Error: " +:+ str_exn e];
         ended := Returned (Some 2) |}
  | Ok cands =>
      let valid := filter (fun x => cand_ok x = true) cands in
      match Py.getitem valid 0 with
      | Raise e => {| stdout := []; stderr := []; ended := Uncaught e |}
      | Ok (tail, idx, w12, _) =>
          let full := Py.join " " (words11 ++ [w12]) in
          {| stdout :=
               ["Valid 12th word: " +:+ w12 +:+ " (tail=" +:+ Py.str_of_Z tail
                  +:+ ", index=" +:+ Py.str_of_Z idx +:+ ")";
                "Full mnemonic: " +:+ full];
             stderr := [];
             ended := Returned None |}
      end
  end.

(** [src/tools/bip39-lastword.py], [all_12word_mnemonics_from_11]. *)
Definition all_12word_mnemonics_from_11 (words11 : list string)
  : result (list string) :=
  if negb (length words11 =? 11)%nat
  then Raise (ValueError (msg_count (length words11)))
  else
    let mnemo := english in
    let word2idx := word2idx_of (wordlist mnemo) in
    idxs ← lookup_indices word2idx words11;
    let bits121 := Py.join "" (Py.format_b 11 <$> idxs) in
    if negb (Py.str_len bits121 =? 121)%nat
    then Raise (RuntimeError msg_bits)
    else
      for_each
        (fun (results : list string) (tail : Z) =>
           let entropy_bits := bits121 +:+ Py.format_b 7 tail in
           n ← Py.int_base2 entropy_bits;
           entropy_bytes ← Py.to_bytes 16 n;
           d0 ← Py.getitem (sha256 entropy_bytes) 0;
           let checksum4 := Z.shiftr (Py.Z_of_byte d0) 4 in
           let last_index := Z.lor (Z.shiftl tail 4) checksum4 in
           last_word ← Py.getitem (wordlist mnemo) last_index;
           let words12 := words11 ++ [last_word] in
           let phrase := Py.join " " words12 in
           if negb (check mnemo phrase)
           then Raise (RuntimeError msg_check)
           else Ok (results ++ [phrase]))
        [] (Py.range 128).

End Main.

End Program.

(** ** SHA-256

    [hashlib.sha256] is a parameter of the program above.  The function
    below is FIPS 180-4 SHA-256 on 32-bit words held in [Z]; it is the
    hash the concrete runs further down are made with. *)

Module SHA256.

Definition add32 (x y : Z) : Z := (x + y) mod 2 ^ 32.
Definition rotr (n x : Z) : Z :=
  Z.lor (Z.shiftr x n) (Z.shiftl x (32 - n) mod 2 ^ 32).
Definition not32 (x : Z) : Z := Z.lxor x 0xffffffff.

Definition Ch (x y z : Z) : Z := Z.lxor (Z.land x y) (Z.land (not32 x) z).
Definition Maj (x y z : Z) : Z :=
  Z.lxor (Z.lxor (Z.land x y) (Z.land x z)) (Z.land y z).
Definition Sigma0 (x : Z) : Z := Z.lxor (Z.lxor (rotr 2 x) (rotr 13 x)) (rotr 22 x).
Definition Sigma1 (x : Z) : Z := Z.lxor (Z.lxor (rotr 6 x) (rotr 11 x)) (rotr 25 x).
Definition sigma0 (x : Z) : Z := Z.lxor (Z.lxor (rotr 7 x) (rotr 18 x)) (Z.shiftr x 3).
Definition sigma1 (x : Z) : Z := Z.lxor (Z.lxor (rotr 17 x) (rotr 19 x)) (Z.shiftr x 10).

(** The first 64 primes. *)
Definition primes64 : list Z :=
  [2; 3; 5; 7; 11; 13; 17; 19; 23; 29; 31; 37; 41; 43; 47; 53; 59; 61; 67; 71;
   73; 79; 83; 89; 97; 101; 103; 107; 109; 113; 127; 131; 137; 139; 149; 151;
   157; 163; 167; 173; 179; 181; 191; 193; 197; 199; 211; 223; 227; 229; 233;
   239; 241; 251; 257; 263; 269; 271; 277; 281; 283; 293; 307; 311].

(** The integer cube root of [x], found bit by bit from bit [n - 1]
    down, starting from [r]. *)
Fixpoint cbrt_bits (n : nat) (x r : Z) : Z :=
  match n with
  | O => r
  | S n' =>
      let r' := r + 2 ^ Z.of_nat n' in
      if r' * r' * r' <=? x then cbrt_bits n' x r' else cbrt_bits n' x r
  end.

(** The first 32 bits of the fractional part of the cube root, and of
    the square root, of [p]. *)
Definition frac_cbrt32 (p : Z) : Z := cbrt_bits 40 (p * 2 ^ 96) 0 mod 2 ^ 32.
Definition frac_sqrt32 (p : Z) : Z := Z.sqrt (p * 2 ^ 64) mod 2 ^ 32.

(** The round constants: from the cube roots of the first 64 primes. *)
Definition K : list Z := Eval vm_compute in frac_cbrt32 <$> primes64.

Definition state : Type := Z * Z * Z * Z * Z * Z * Z * Z.

(** The initial hash value: from the square roots of the first 8
    primes. *)
Definition H0 : state :=
  Eval vm_compute in
    (frac_sqrt32 2, frac_sqrt32 3, frac_sqrt32 5, frac_sqrt32 7,
     frac_sqrt32 11, frac_sqrt32 13, frac_sqrt32 17, frac_sqrt32 19).

(** Message padding: the byte 0x80, zero bytes up to 56 modulo 64, and
    the length in bits on 8 bytes. *)
Definition pad (m : list byte) : list byte :=
  let l := Z.of_nat (length m) in
  m ++ [x80] ++ replicate (Z.to_nat ((55 - l) mod 64)) x00 ++ Py.bytes_be 8 (8 * l).

Fixpoint words_of (bs : list byte) : list Z :=
  match bs with
  | a :: b :: c :: d :: r =>
      (((Py.Z_of_byte a * 256 + Py.Z_of_byte b) * 256 + Py.Z_of_byte c) * 256
       + Py.Z_of_byte d) :: words_of r
  | _ => []
  end.

(** The message schedule, kept most recent word first. *)
Fixpoint extend (n : nat) (rev_w : list Z) : list Z :=
  match n with
  | O => rev_w
  | S n' =>
      let g i := nth i rev_w 0 in
      extend n'
        (add32 (add32 (sigma1 (g 1%nat)) (g 6%nat))
               (add32 (sigma0 (g 14%nat)) (g 15%nat)) :: rev_w)
  end.

Definition schedule (block : list Z) : list Z := rev (extend 48 (rev block)).

Definition round (st : state) (kw : Z * Z) : state :=
  let '(a, b, c, d, e, f, g, h) := st in
  let t1 := add32 (add32 (add32 h (Sigma1 e)) (add32 (Ch e f g) kw.1)) kw.2 in
  let t2 := add32 (Sigma0 a) (Maj a b c) in
  (add32 t1 t2, a, b, c, add32 d t1, e, f, g).

Definition compress (st : state) (block : list Z) : state :=
  let '(a, b, c, d, e, f, g, h) := st in
  let '(a', b', c', d', e', f', g', h') :=
    foldl round st (zip K (schedule block)) in
  (add32 a a', add32 b b', add32 c c', add32 d d',
   add32 e e', add32 f f', add32 g g', add32 h h').

Fixpoint process (n : nat) (st : state) (ws : list Z) : state :=
  match n with
  | O => st
  | S n' => process n' (compress st (take 16 ws)) (drop 16 ws)
  end.

Definition digest_of (st : state) : list byte :=
  let '(a, b, c, d, e, f, g, h) := st in
  Py.bytes_be 4 a ++ Py.bytes_be 4 b ++ Py.bytes_be 4 c ++ Py.bytes_be 4 d ++
  Py.bytes_be 4 e ++ Py.bytes_be 4 f ++ Py.bytes_be 4 g ++ Py.bytes_be 4 h.

Definition sha256 (m : list byte) : list byte :=
  let ws := words_of (pad m) in
  digest_of (process (length ws / 16)%nat H0 ws).

(** A digest read as one big-endian number. *)
Definition digest_value (d : list byte) : Z :=
  foldl (fun acc b => acc * 256 + Py.Z_of_byte b) 0 d.

End SHA256.


(** ** The specification's own definitions

    The data model and the steps of sections 3 and 4 of the
    specification, written on bit sequences as the specification words
    them, for comparison with the string manipulation of the program. *)

Module Spec.

(** A fixed-width big-endian binary encoding: the [w] low bits of [n],
    most significant first. *)
Fixpoint bits_be (w : nat) (n : Z) : list bool :=
  match w with
  | O => []
  | S w' => Z.testbit n (Z.of_nat w') :: bits_be w' n
  end.

(** The number a bit sequence denotes, most significant bit first. *)
Definition bits_value (bits : list bool) : Z :=
  foldl (fun acc b => 2 * acc + Z.b2z b) 0 bits.

(** 4.1, the Bit Packer: each index as 11 bits, in input order. *)
Definition bit_packer (idxs : list Z) : list bool :=
  concat (bits_be 11 <$> idxs).

(** 4.2 step 1: the prefix followed by the 7 bits of the tail. *)
Definition entropy_bits (prefix : list bool) (tail : Z) : list bool :=
  prefix ++ bits_be 7 tail.

(** 4.2 step 2: [k] raw bytes, bit 0 of the sequence being the most
    significant bit of byte 0. *)
Fixpoint pack_bytes (k : nat) (bits : list bool) : list byte :=
  match k with
  | O => []
  | S k' =>
      Py.byte_of_Z (bits_value (take 8 bits)) :: pack_bytes k' (drop 8 bits)
  end.

(** 4.2 step 3: the first byte of the hash, shifted right by 4. *)
Definition checksum (sha256 : list byte -> list byte) (entropy : list bool) : Z :=
  match sha256 (pack_bytes 16 entropy) with
  | b :: _ => Z.shiftr (Py.Z_of_byte b) 4
  | [] => 0
  end.

(** 4.2 step 4. *)
Definition last_word_index (tail checksum : Z) : Z :=
  Z.lor (Z.shiftl tail 4) checksum.

(** The Wordlist Index, word to index: the position of the word. *)
Fixpoint index_from (wl : list string) (w : string) (i : Z) : option Z :=
  match wl with
  | [] => None
  | x :: wl' => if decide (x = w) then Some i else index_from wl' w (i + 1)
  end.

Definition word_index (wl : list string) (w : string) : option Z :=
  index_from wl w 0.

Fixpoint word_indices (wl : list string) (ws : list string) : option (list Z) :=
  match ws with
  | [] => Some []
  | w :: ws' =>
      match word_index wl w, word_indices wl ws' with
      | Some i, Some rest => Some (i :: rest)
      | _, _ => None
      end
  end.

(** Modelled from the spec: the Validator of section 4.3, which the
    program reaches as [check] of the [mnemonic] package, whose code is
    not among the sources.  The phrase is split into 11+1 words, the
    indices are re-derived, the checksum of the entropy (the 11 words'
    prefix and the tail that the top 7 bits of the twelfth index give) is
    recomputed with steps 1 to 3, and compared with the low 4 bits of the
    twelfth index.  Any other phrase is refused. *)
Definition validator (sha256 : list byte -> list byte) (wl : list string)
    (phrase : string) : bool :=
  let words := Py.split_on " " phrase in
  if negb (length words =? 12)%nat then false
  else
    match word_indices wl words with
    | Some idxs =>
        let idx11 := take 11 idxs in
        let idx12 := nth 11 idxs 0 in
        let tail := Z.shiftr idx12 4 in
        checksum sha256 (entropy_bits (bit_packer idx11) tail)
          =? Z.land idx12 15
    | None => false
    end.

End Spec.

(** ** Concrete collaborators for running the program

    The 2048 words of the English list are data of the [mnemonic]
    package.  [demo_wordlist] is a stand-in of the same shape: 2048
    distinct words without spaces. *)

Definition demo_word (i : Z) : string := String "w" (Py.format_b 11 i).
Definition demo_wordlist : list string := demo_word <$> Py.range 2048.

(** A [Mnemonic] whose [check] is the Validator. *)
Definition demo_mnemo : Mnemonic :=
  {| wordlist := demo_wordlist;
     check := Spec.validator SHA256.sha256 demo_wordlist |}.

(** A [Mnemonic] whose [check] refuses every phrase. *)
Definition deaf_mnemo : Mnemonic :=
  {| wordlist := demo_wordlist; check := fun _ => false |}.

Definition demo_words11 : list string := replicate 11 (demo_word 0).


(** ** The command line of the sibling *)

Section ToolsMain.

Variable sha256 : list byte -> list byte.

(** The object [Mnemonic("english")] builds. *)
Variable english : Mnemonic.

Definition newline : string := String (ascii_of_N 10) "".

(** The text [main] prints when it is given no argument. *)
Definition usage : string :=
  "Usage:" +:+ newline
  +:+ "  python3 bip39_lastword.py w1 w2 ... w11" +:+ newline
  +:+ "  python3 bip39_lastword.py "
  +:+ String Py.dquote ("w1 w2 ... w11" +:+ String Py.dquote "").

(** [src/tools/bip39-lastword.py], [main], from [sys.argv[1:]] on. Each
    [print] is one entry of its stream. *)
Definition tools_main (argv : list string) : run :=
  match argv with
  | [] => {| stdout := []; stderr := [usage]; ended := Returned (Some 2) |}
  | _ =>
      let words11 := normalize_words_arg argv in
      match all_12word_mnemonics_from_11 sha256 english words11 with
      | Raise e =>
          {| stdout := [];
             stderr := ["Error: " +:+ str_exn e];
             ended := Returned (Some 2) |}
      | Ok lines =>
          {| stdout := lines; stderr := []; ended := Returned (Some 0) |}
      end
  end.

End ToolsMain.

(** ** Auxiliary definitions of the proofs *)

(** What the digits of the 11-bit indices denote, read in order after
    the number [a]. *)
Definition value11 (a : Z) (idxs : list Z) : Z :=
  foldl (fun acc i => acc * 2048 + i) a idxs.

(** [Spec.bits_value] continued from the number [a]. *)
Definition bits_fold (a : Z) (bits : list bool) : Z :=
  foldl (fun acc b => 2 * acc + Z.b2z b) a bits.

(** The candidate of one [tail] as sections 4.2 steps 1 to 6 word it,
    from the indices of the eleven words; [IsValid] is what [check]
    answers on the full phrase. *)
Definition spec_index (sha256 : list byte -> list byte) (idxs : list Z)
    (tail : Z) : Z :=
  Spec.last_word_index tail
    (Spec.checksum sha256 (Spec.entropy_bits (Spec.bit_packer idxs) tail)).

Definition spec_word (wl : list string) (index : Z) : string :=
  default "" (wl !! Z.to_nat index).

Definition spec_phrase (words11 : list string) (last_word : string) : string :=
  Py.join " " (words11 ++ [last_word]).

Definition spec_candidate (sha256 : list byte -> list byte) (mnemo : Mnemonic)
    (words11 : list string) (idxs : list Z) (tail : Z) : candidate :=
  let index := spec_index sha256 idxs tail in
  let word := spec_word (wordlist mnemo) index in
  (tail, index, word, check mnemo (spec_phrase words11 word)).

(** ** The standing assumptions on the collaborators *)

(** A hash returns 32 bytes. *)
Definition is_hash (sha256 : list byte -> list byte) : Prop :=
  forall m, length (sha256 m) = 32%nat.

(** A reference wordlist has 2048 distinct words, none with a space. *)
Record reference_wordlist (wl : list string) : Prop := {
  ref_len : length wl = 2048%nat;
  ref_nodup : NoDup wl;
  ref_nospace : Forall (fun w => Py.contains " " w = false) wl
}.

(** Eleven words, all of the wordlist. *)
Definition valid_words11 (wl words11 : list string) : Prop :=
  length words11 = 11%nat /\ Forall (fun w => w ∈ wl) words11.

(** The [check] of the [Mnemonic] is the Validator. *)
Definition check_is_validator (sha256 : list byte -> list byte)
    (mnemo : Mnemonic) : Prop :=
  forall phrase,
    check mnemo phrase = Spec.validator sha256 (wordlist mnemo) phrase.

(** The candidates with [IsValid = true]: [[x for x in cands if x[3]]]. *)
Definition valid_candidates (cands : list candidate) : list candidate :=
  filter (fun x => cand_ok x = true) cands.



(** A token: a non-empty string without whitespace, which is what the
    shell hands over for an unquoted word. *)
Fixpoint has_space (w : string) : bool :=
  match w with
  | EmptyString => false
  | String c w' => Py.is_space c || has_space w'
  end.

Definition is_token (w : string) : bool :=
  match w with
  | EmptyString => false
  | _ => negb (has_space w)
  end.

(** A token of ASCII characters only. *)
Fixpoint is_ascii (w : string) : bool :=
  match w with
  | EmptyString => true
  | String c w' => (N_of_ascii c <? 128)%N && is_ascii w'
  end.

Definition ascii_token (w : string) : bool := is_token w && is_ascii w.

(** A candidate without its [ok] flag. *)
Definition cand_core (c : candidate) : Z * Z * string :=
  (cand_tail c, cand_index c, cand_word c).

(** The phrase [all_last_words_from_11] hands to [check] for a
    candidate. *)
Definition cand_phrase (words11 : list string) (c : candidate) : string :=
  Py.join " " (words11 ++ [cand_word c]).

(** A result seen through a function of its value. *)
Definition result_map {A B} (f : A -> B) (r : result A) : result B :=
  match r with
  | Ok a => Ok (f a)
  | Raise e => Raise e
  end.

(** A wordlist of 2049 distinct words, one more than the reference
    has, and a [Mnemonic] on it. *)
Definition long_wordlist : list string := demo_word <$> Py.range 2049.

Definition long_mnemo : Mnemonic :=
  {| wordlist := long_wordlist; check := fun _ => true |}.

(** * Properties *)

(** ** Binary formatting and parsing *)

Section Binary.

Lemma app_cons (c : ascii) (s t : string) :
  String c s +:+ t = String c (s +:+ t).
Proof. reflexivity. Qed.

Lemma app_empty_l (t : string) : "" +:+ t = t.
Proof. reflexivity. Qed.

Lemma str_len_app (s t : string) :
  Py.str_len (s +:+ t) = (Py.str_len s + Py.str_len t)%nat.
Proof.
  unfold Py.str_len. induction s as [|c s IH]; [reflexivity|].
  rewrite app_cons. simpl. now rewrite IH.
Qed.

Lemma app_assoc_str (s t u : string) : (s +:+ t) +:+ u = s +:+ (t +:+ u).
Proof.
  induction s as [|c s IH]; [reflexivity|].
  rewrite !app_cons. now rewrite IH.
Qed.

Lemma app_empty_r (s : string) : s +:+ "" = s.
Proof.
  induction s as [|c s IH]; [reflexivity|].
  rewrite app_cons. now rewrite IH.
Qed.

Lemma pos_bin_acc (p : positive) (acc : string) :
  Py.pos_bin p acc = Py.pos_bin p "" +:+ acc.
Proof.
  revert acc. induction p as [p IH|p IH|]; intros acc; simpl.
  - rewrite (IH (String "1" acc)), (IH "1"), app_assoc_str. reflexivity.
  - rewrite (IH (String "0" acc)), (IH "0"), app_assoc_str. reflexivity.
  - reflexivity.
Qed.

Lemma int2_digits_app (s t : string) (a : Z) :
  Py.int2_digits (s +:+ t) a =
  match Py.int2_digits s a with
  | Some b => Py.int2_digits t b
  | None => None
  end.
Proof.
  revert a. induction s as [|c s IH]; intros a; [reflexivity|].
  rewrite app_cons. simpl.
  destruct (Ascii.eqb c "0"); [apply IH|].
  destruct (Ascii.eqb c "1"); [apply IH|reflexivity].
Qed.

Lemma pos_bin_len (p : positive) :
  Py.str_len (Py.pos_bin p "") = Pos.size_nat p.
Proof.
  induction p as [p IH|p IH|]; simpl; [| |reflexivity];
    rewrite pos_bin_acc, str_len_app, IH; simpl; lia.
Qed.

Lemma pos_bin_int2 (p : positive) (a : Z) :
  Py.int2_digits (Py.pos_bin p "") a =
  Some (a * 2 ^ Z.of_nat (Pos.size_nat p) + Z.pos p).
Proof.
  revert a. induction p as [p IH|p IH|]; intros a; simpl Py.pos_bin.
  - rewrite pos_bin_acc, int2_digits_app, IH. simpl Py.int2_digits.
    f_equal. simpl Pos.size_nat. rewrite Nat2Z.inj_succ, Z.pow_succ_r by lia. lia.
  - rewrite pos_bin_acc, int2_digits_app, IH. simpl Py.int2_digits.
    f_equal. simpl Pos.size_nat. rewrite Nat2Z.inj_succ, Z.pow_succ_r by lia. lia.
  - simpl. f_equal. lia.
Qed.

Lemma size_nat_bound (p : positive) (w : nat) :
  Z.pos p < 2 ^ Z.of_nat w -> (Pos.size_nat p <= w)%nat.
Proof.
  revert w. induction p as [p IH|p IH|]; intros w Hlt; simpl.
  - destruct w as [|w]; [simpl in Hlt; lia|].
    rewrite Nat2Z.inj_succ, Z.pow_succ_r in Hlt by lia.
    specialize (IH w). lia.
  - destruct w as [|w]; [simpl in Hlt; lia|].
    rewrite Nat2Z.inj_succ, Z.pow_succ_r in Hlt by lia.
    specialize (IH w). lia.
  - destruct w as [|w]; [simpl in Hlt; lia|lia].
Qed.

Lemma zeros_len (k : nat) : Py.str_len (Py.zeros k) = k.
Proof.
  unfold Py.str_len. induction k as [|k IH]; [reflexivity|].
  simpl. now rewrite IH.
Qed.

Lemma zeros_int2 (k : nat) (a : Z) :
  Py.int2_digits (Py.zeros k) a = Some (a * 2 ^ Z.of_nat k).
Proof.
  revert a. induction k as [|k IH]; intros a.
  - simpl. f_equal. lia.
  - simpl Py.zeros. simpl Py.int2_digits. rewrite IH. f_equal.
    rewrite Nat2Z.inj_succ, Z.pow_succ_r by lia. lia.
Qed.

Lemma bin_digits_len (n : Z) (w : nat) :
  0 <= n < 2 ^ Z.of_nat w -> (0 < w)%nat ->
  (Py.str_len (Py.bin_digits n) <= w)%nat.
Proof.
  intros [Hn Hlt] Hw. destruct n as [|p|p]; simpl.
  - lia.
  - rewrite pos_bin_len. now apply size_nat_bound.
  - lia.
Qed.

(** A number that fits in [w] bits is printed on exactly [w] digits. *)
Lemma format_b_len (w : nat) (n : Z) :
  0 <= n < 2 ^ Z.of_nat w -> (0 < w)%nat ->
  Py.str_len (Py.format_b w n) = w.
Proof.
  intros Hn Hw. pose proof (bin_digits_len n w Hn Hw) as Hd.
  unfold Py.format_b. destruct (Z.ltb_spec n 0) as [Hneg|_]; [lia|].
  rewrite str_len_app, zeros_len. lia.
Qed.

(** Parsing continues from the accumulator: the digits of [n] on [w]
    places shift it by [w] and add [n]. *)
Lemma format_b_int2 (w : nat) (n a : Z) :
  0 <= n < 2 ^ Z.of_nat w -> (0 < w)%nat ->
  Py.int2_digits (Py.format_b w n) a = Some (a * 2 ^ Z.of_nat w + n).
Proof.
  intros Hn Hw. pose proof (bin_digits_len n w Hn Hw) as Hd.
  unfold Py.format_b. destruct (Z.ltb_spec n 0) as [Hneg|_]; [lia|].
  rewrite int2_digits_app, zeros_int2.
  destruct n as [|p|p]; [| |lia].
  - simpl Py.bin_digits in *. simpl Py.int2_digits. f_equal.
    simpl Py.str_len in *.
    replace (2 ^ Z.of_nat w) with (2 * 2 ^ Z.of_nat (w - 1))
      by (rewrite <- Z.pow_succ_r by lia; f_equal; lia).
    lia.
  - simpl Py.bin_digits in *. rewrite pos_bin_int2. f_equal.
    rewrite pos_bin_len in *.
    set (k := Pos.size_nat p) in *.
    replace (2 ^ Z.of_nat w) with (2 ^ Z.of_nat (w - k) * 2 ^ Z.of_nat k)
      by (rewrite <- Z.pow_add_r by lia; f_equal; lia).
    lia.
Qed.

Lemma join_empty_cons (w : string) (l : list string) :
  Py.join "" (w :: l) = w +:+ Py.join "" l.
Proof.
  destruct l as [|w' l]; simpl; [now rewrite app_empty_r|now rewrite app_empty_l].
Qed.

Lemma bits121_len (idxs : list Z) :
  Forall (fun i => 0 <= i < 2048) idxs ->
  Py.str_len (Py.join "" (Py.format_b 11 <$> idxs)) = (11 * length idxs)%nat.
Proof.
  induction 1 as [|i idxs Hi _ IH]; [reflexivity|].
  rewrite fmap_cons, join_empty_cons, str_len_app, IH.
  rewrite format_b_len by (simpl; lia). simpl. lia.
Qed.

Lemma bits121_int2 (idxs : list Z) (a : Z) :
  Forall (fun i => 0 <= i < 2048) idxs ->
  Py.int2_digits (Py.join "" (Py.format_b 11 <$> idxs)) a =
  Some (value11 a idxs).
Proof.
  intros H. revert a. induction H as [|i idxs Hi _ IH]; intros a; [reflexivity|].
  rewrite fmap_cons, join_empty_cons, int2_digits_app.
  rewrite format_b_int2 by (simpl; lia). rewrite IH. reflexivity.
Qed.

Lemma value11_bounds (idxs : list Z) (a : Z) :
  Forall (fun i => 0 <= i < 2048) idxs -> 0 <= a ->
  a * 2048 ^ Z.of_nat (length idxs) <= value11 a idxs
    < (a + 1) * 2048 ^ Z.of_nat (length idxs).
Proof.
  intros H. revert a. induction H as [|i idxs Hi _ IH]; intros a Ha.
  - simpl. lia.
  - simpl value11. simpl length. rewrite Nat2Z.inj_succ, Z.pow_succ_r by lia.
    specialize (IH (a * 2048 + i) ltac:(lia)). unfold value11 in *.
    nia.
Qed.

End Binary.

(** ** Bit sequences and bytes *)

Section Bits.

Lemma bits_fold_app (a : Z) (l1 l2 : list bool) :
  bits_fold a (l1 ++ l2) = bits_fold (bits_fold a l1) l2.
Proof. apply foldl_app. Qed.

Lemma bits_fold_shift (a : Z) (l : list bool) :
  bits_fold a l = a * 2 ^ Z.of_nat (length l) + bits_fold 0 l.
Proof.
  revert a. induction l as [|b l IH]; intros a.
  - simpl. lia.
  - change (bits_fold a (b :: l)) with (bits_fold (2 * a + Z.b2z b) l).
    change (bits_fold 0 (b :: l)) with (bits_fold (2 * 0 + Z.b2z b) l).
    rewrite (IH (2 * a + Z.b2z b)), (IH (2 * 0 + Z.b2z b)).
    simpl length. rewrite Nat2Z.inj_succ, Z.pow_succ_r by lia. lia.
Qed.

Lemma bits_fold_bounds (l : list bool) :
  0 <= bits_fold 0 l < 2 ^ Z.of_nat (length l).
Proof.
  induction l as [|b l IH] using rev_ind.
  - simpl. lia.
  - rewrite bits_fold_app, length_app, Nat2Z.inj_add, Z.pow_add_r by lia.
    simpl. destruct b; simpl Z.b2z; lia.
Qed.

Lemma bits_be_len (w : nat) (n : Z) : length (Spec.bits_be w n) = w.
Proof. induction w as [|w IH]; simpl; [reflexivity|]. now rewrite IH. Qed.

Lemma bits_be_fold_mod (w : nat) (n a : Z) :
  bits_fold a (Spec.bits_be w n) = a * 2 ^ Z.of_nat w + n mod 2 ^ Z.of_nat w.
Proof.
  revert a. induction w as [|w IH]; intros a.
  - simpl. rewrite Z.mod_1_r. lia.
  - change (bits_fold a (Spec.bits_be (S w) n))
      with (bits_fold (2 * a + Z.b2z (Z.testbit n (Z.of_nat w))) (Spec.bits_be w n)).
    rewrite IH, Z.testbit_spec' by lia.
    rewrite Nat2Z.inj_succ, Z.pow_succ_r by lia.
    rewrite (Z.mul_comm 2 (2 ^ Z.of_nat w)).
    rewrite (Z.rem_mul_r n (2 ^ Z.of_nat w) 2) by lia.
    lia.
Qed.

Lemma bits_be_fold (w : nat) (n a : Z) :
  0 <= n < 2 ^ Z.of_nat w ->
  bits_fold a (Spec.bits_be w n) = a * 2 ^ Z.of_nat w + n.
Proof. intros Hn. rewrite bits_be_fold_mod, Z.mod_small by lia. reflexivity. Qed.

Lemma bit_packer_len (idxs : list Z) :
  length (Spec.bit_packer idxs) = (11 * length idxs)%nat.
Proof.
  unfold Spec.bit_packer. induction idxs as [|i idxs IH]; [reflexivity|].
  rewrite fmap_cons, concat_cons, length_app, IH, bits_be_len.
  simpl. lia.
Qed.

(** The Bit Packer's sequence denotes the same number as the digits
    the program concatenates. *)
Lemma bit_packer_fold (idxs : list Z) (a : Z) :
  Forall (fun i => 0 <= i < 2048) idxs ->
  bits_fold a (Spec.bit_packer idxs) = value11 a idxs.
Proof.
  intros H. revert a. unfold Spec.bit_packer.
  induction H as [|i idxs Hi _ IH]; intros a; [reflexivity|].
  rewrite fmap_cons, concat_cons, bits_fold_app.
  rewrite bits_be_fold by (simpl; lia). rewrite IH. reflexivity.
Qed.

Lemma byte_of_Z_add (x y : Z) :
  Py.byte_of_Z (x * 256 + y) = Py.byte_of_Z y.
Proof.
  unfold Py.byte_of_Z. rewrite Z.add_comm, Z_mod_plus_full. reflexivity.
Qed.

Lemma Z_of_byte_range (b : byte) : 0 <= Py.Z_of_byte b < 256.
Proof.
  unfold Py.Z_of_byte. pose proof (Byte.to_N_bounded b). lia.
Qed.

Lemma bytes_be_len (k : nat) (n : Z) : length (Py.bytes_be k n) = k.
Proof. induction k as [|k IH]; simpl; [reflexivity|]. now rewrite IH. Qed.

(** Only the [8k] low bits of a number reach its [k] bytes. *)
Lemma bytes_be_shift (k m : nat) (a r : Z) :
  (k <= m)%nat ->
  Py.bytes_be k (a * 2 ^ (8 * Z.of_nat m) + r) = Py.bytes_be k r.
Proof.
  induction k as [|k IH]; intros Hk; [reflexivity|].
  simpl Py.bytes_be. rewrite IH by lia. f_equal.
  replace (8 * Z.of_nat m) with (8 * Z.of_nat (m - S k) + 8 + 8 * Z.of_nat k) by lia.
  rewrite !Z.pow_add_r by lia.
  replace (a * (2 ^ (8 * Z.of_nat (m - S k)) * 2 ^ 8 * 2 ^ (8 * Z.of_nat k)) + r)
    with (a * 2 ^ (8 * Z.of_nat (m - S k)) * 256 * 2 ^ (8 * Z.of_nat k) + r)
    by (change (2 ^ 8) with 256; ring).
  rewrite Z.div_add_l by lia.
  apply byte_of_Z_add.
Qed.

(** Packing bits most significant first gives the big-endian bytes of
    the number the bits denote. *)
Lemma pack_bytes_be (k : nat) (bits : list bool) :
  length bits = (8 * k)%nat ->
  Spec.pack_bytes k bits = Py.bytes_be k (Spec.bits_value bits).
Proof.
  revert bits. induction k as [|k IH]; intros bits Hlen; [reflexivity|].
  simpl Spec.pack_bytes. simpl Py.bytes_be.
  assert (Hd : length (drop 8 bits) = (8 * k)%nat) by (rewrite length_drop; lia).
  assert (Ht : length (take 8 bits) = 8%nat) by (rewrite length_take; lia).
  assert (Hv : Spec.bits_value bits =
               Spec.bits_value (take 8 bits) * 2 ^ (8 * Z.of_nat k)
               + Spec.bits_value (drop 8 bits)).
  { rewrite <- (take_drop 8 bits) at 1.
    change (Spec.bits_value (take 8 bits ++ drop 8 bits))
      with (bits_fold 0 (take 8 bits ++ drop 8 bits)).
    rewrite bits_fold_app, bits_fold_shift, Hd. do 2 f_equal. lia. }
  pose proof (bits_fold_bounds (drop 8 bits)) as Hb.
  rewrite Hd in Hb.
  replace (Z.of_nat (8 * k)) with (8 * Z.of_nat k) in Hb by lia.
  change (bits_fold 0 (drop 8 bits)) with (Spec.bits_value (drop 8 bits)) in Hb.
  rewrite IH by exact Hd. f_equal.
  - f_equal. rewrite Hv, Z.div_add_l by lia. rewrite Z.div_small by lia. lia.
  - rewrite Hv. symmetry. apply bytes_be_shift. lia.
Qed.

End Bits.

(** ** The word index *)

Section WordIndex.

Lemma enumerate_snoc {A} (l : list A) (x : A) :
  Py.enumerate (l ++ [x]) = Py.enumerate l ++ [(Z.of_nat (length l), x)].
Proof.
  unfold Py.enumerate. rewrite imap_app. simpl.
  now rewrite Nat.add_0_r.
Qed.

(** Building the dictionary in list order: the last word entered wins. *)
Lemma word2idx_snoc (wl : list string) (w : string) :
  word2idx_of (wl ++ [w]) = <[w := Z.of_nat (length wl)]> (word2idx_of wl).
Proof.
  unfold word2idx_of. rewrite enumerate_snoc, foldl_snoc. reflexivity.
Qed.

Lemma word2idx_Some (wl : list string) (w : string) (i : Z) :
  word2idx_of wl !! w = Some i ->
  0 <= i < Z.of_nat (length wl) /\ wl !! Z.to_nat i = Some w.
Proof.
  induction wl as [|x wl IH] using rev_ind; intros H.
  - unfold word2idx_of in H. simpl in H. now rewrite lookup_empty in H.
  - rewrite word2idx_snoc in H. rewrite length_app. simpl length.
    destruct (decide (x = w)) as [->|Hne].
    + rewrite lookup_insert_eq in H. injection H as <-.
      split; [lia|]. rewrite Nat2Z.id.
      rewrite lookup_app_r by lia. now rewrite Nat.sub_diag.
    + rewrite lookup_insert_ne in H by exact Hne.
      destruct (IH H) as [Hr Hl]. split; [lia|].
      rewrite lookup_app_l; [exact Hl|lia].
Qed.

Lemma word2idx_None (wl : list string) (w : string) :
  word2idx_of wl !! w = None <-> w ∉ wl.
Proof.
  induction wl as [|x wl IH] using rev_ind.
  - unfold word2idx_of. simpl. rewrite lookup_empty.
    split; [intros _; apply not_elem_of_nil|reflexivity].
  - rewrite word2idx_snoc, not_elem_of_app, not_elem_of_cons.
    destruct (decide (x = w)) as [->|Hne].
    + rewrite lookup_insert_eq. split; [discriminate|]. intros [_ [Hw _]]. congruence.
    + rewrite lookup_insert_ne by exact Hne. rewrite IH.
      split; [intros Hn; repeat split; [exact Hn|congruence|apply not_elem_of_nil]
             |intros [Hn _]; exact Hn].
Qed.

Lemma word2idx_is_Some (wl : list string) (w : string) :
  w ∈ wl -> is_Some (word2idx_of wl !! w).
Proof.
  intros Hin. destruct (word2idx_of wl !! w) eqn:E; [eauto|].
  apply word2idx_None in E. contradiction.
Qed.

(** Without repeated words the dictionary inverts the list. *)
Lemma word2idx_nodup (wl : list string) (i : nat) (w : string) :
  NoDup wl -> wl !! i = Some w -> word2idx_of wl !! w = Some (Z.of_nat i).
Proof.
  intros Hnd Hi.
  destruct (word2idx_is_Some wl w) as [j Hj].
  { apply list_elem_of_lookup. eauto. }
  rewrite Hj. f_equal.
  destruct (word2idx_Some wl w j Hj) as [Hr Hl].
  pose proof (NoDup_lookup wl _ _ w Hnd Hl Hi). lia.
Qed.

Lemma index_from_nodup (wl : list string) (i : nat) (w : string) (k : Z) :
  NoDup wl -> wl !! i = Some w ->
  Spec.index_from wl w k = Some (k + Z.of_nat i).
Proof.
  revert i k. induction wl as [|x wl IH]; intros i k Hnd Hi; [discriminate|].
  apply NoDup_cons in Hnd as [Hx Hnd]. simpl.
  destruct i as [|i]; simpl in Hi.
  - injection Hi as ->. rewrite decide_True by reflexivity. f_equal. lia.
  - rewrite decide_False.
    + rewrite (IH i (k + 1) Hnd Hi). f_equal. lia.
    + intros ->. apply Hx. apply list_elem_of_lookup. eauto.
Qed.

Lemma index_from_None (wl : list string) (w : string) (k : Z) :
  w ∉ wl -> Spec.index_from wl w k = None.
Proof.
  revert k. induction wl as [|x wl IH]; intros k Hn; [reflexivity|].
  apply not_elem_of_cons in Hn as [Hne Hn]. simpl.
  rewrite decide_False by congruence. now apply IH.
Qed.

(** On a list without repeated words the specification's word index
    and the program's dictionary agree. *)
Lemma word_index_word2idx (wl : list string) (w : string) :
  NoDup wl -> Spec.word_index wl w = word2idx_of wl !! w.
Proof.
  intros Hnd. unfold Spec.word_index.
  destruct (word2idx_of wl !! w) as [j|] eqn:Hj.
  - destruct (word2idx_Some wl w j Hj) as [Hr Hl].
    rewrite (index_from_nodup wl _ w 0 Hnd Hl). f_equal. lia.
  - apply index_from_None. now apply word2idx_None.
Qed.

Lemma lookup_all_Ok (m : gmap string Z) (ws : list string) (idxs : list Z) :
  lookup_all m ws = Ok idxs -> Forall2 (fun w i => m !! w = Some i) ws idxs.
Proof.
  revert idxs. induction ws as [|w ws IH]; intros idxs H; simpl in H.
  - injection H as <-. constructor.
  - destruct (m !! w) as [i|] eqn:Hw; [|discriminate].
    destruct (lookup_all m ws) as [rest|e]; simpl in H; [|discriminate].
    injection H as <-. constructor; [exact Hw|now apply IH].
Qed.

Lemma lookup_all_total (m : gmap string Z) (ws : list string) :
  Forall (fun w => is_Some (m !! w)) ws -> exists idxs, lookup_all m ws = Ok idxs.
Proof.
  induction 1 as [|w ws [i Hi] _ [rest IH]]; simpl.
  - eauto.
  - rewrite Hi, IH. simpl. eauto.
Qed.

(** The exception of the lookup is the [KeyError] of the first word the
    dictionary does not have. *)
Lemma lookup_all_Raise (m : gmap string Z) (ws : list string) (e : exn) :
  lookup_all m ws = Raise e ->
  exists pre w post,
    ws = pre ++ w :: post /\ e = KeyError w /\ m !! w = None /\
    Forall (fun v => is_Some (m !! v)) pre.
Proof.
  induction ws as [|w ws IH]; intros H; simpl in H; [discriminate|].
  destruct (m !! w) as [i|] eqn:Hw.
  - destruct (lookup_all m ws) as [rest|e'] eqn:Hr; simpl in H; [discriminate|].
    injection H as <-.
    destruct (IH eq_refl) as (pre & v & post & -> & -> & Hv & Hpre).
    exists (w :: pre), v, post. repeat split; [exact Hv|].
    constructor; [rewrite Hw; eauto|exact Hpre].
  - injection H as <-. exists [], w, ws. repeat split; [exact Hw|constructor].
Qed.

Lemma lookup_all_first_missing (m : gmap string Z) (pre post : list string)
    (w : string) :
  Forall (fun v => is_Some (m !! v)) pre -> m !! w = None ->
  lookup_all m (pre ++ w :: post) = Raise (KeyError w).
Proof.
  intros Hpre Hw. induction Hpre as [|v pre [i Hi] _ IH]; simpl.
  - now rewrite Hw.
  - rewrite Hi, IH. reflexivity.
Qed.

Lemma word_indices_lookup_all (wl ws : list string) (idxs : list Z) :
  NoDup wl -> lookup_all (word2idx_of wl) ws = Ok idxs ->
  Spec.word_indices wl ws = Some idxs.
Proof.
  intros Hnd. revert idxs. induction ws as [|w ws IH]; intros idxs H; simpl in H.
  - injection H as <-. reflexivity.
  - simpl. rewrite (word_index_word2idx wl w Hnd).
    destruct (word2idx_of wl !! w) as [i|]; [|discriminate].
    destruct (lookup_all (word2idx_of wl) ws) as [rest|e]; simpl in H; [|discriminate].
    injection H as <-. now rewrite (IH rest eq_refl).
Qed.

End WordIndex.

(** ** The loop *)

Section Loop.

Lemma bind_Ok {A B} (a : A) (f : A -> result B) : (Ok a ≫= f) = f a.
Proof. reflexivity. Qed.

Lemma bind_Raise {A B} (e : exn) (f : A -> result B) : (Raise e ≫= f) = Raise e.
Proof. reflexivity. Qed.

(** A loop whose every pass appends one item collects them in order. *)
Lemma for_each_collect {A B} (body : list B -> A -> result (list B))
    (g : A -> B) (l : list A) (out : list B) :
  (forall out' a, a ∈ l -> body out' a = Ok (out' ++ [g a])) ->
  for_each body out l = Ok (out ++ (g <$> l)).
Proof.
  revert out. induction l as [|a l IH]; intros out Hbody; simpl.
  - now rewrite app_nil_r.
  - rewrite Hbody by apply list_elem_of_here. rewrite bind_Ok.
    rewrite IH.
    + now rewrite <- app_assoc.
    + intros out' a' Hin. apply Hbody. now apply list_elem_of_further.
Qed.

(** A loop only raises what one of its passes raises. *)
Lemma for_each_Raise {A S} (body : S -> A -> result S) (l : list A) (st : S)
    (e : exn) :
  for_each body st l = Raise e -> exists st' a, a ∈ l /\ body st' a = Raise e.
Proof.
  revert st. induction l as [|a l IH]; intros st H; simpl in H; [discriminate|].
  destruct (body st a) as [st1|e1] eqn:Hb.
  - rewrite bind_Ok in H. destruct (IH st1 H) as (st' & a' & Hin & Hr).
    exists st', a'. split; [now apply list_elem_of_further|exact Hr].
  - rewrite bind_Raise in H. injection H as <-.
    exists st, a. split; [apply list_elem_of_here|exact Hb].
Qed.

Lemma elem_of_range (n : nat) (t : Z) :
  t ∈ Py.range n <-> 0 <= t < Z.of_nat n.
Proof.
  unfold Py.range. rewrite list_elem_of_fmap. split.
  - intros (k & -> & Hk). apply elem_of_seq in Hk. lia.
  - intros Ht. exists (Z.to_nat t). split; [lia|]. apply elem_of_seq. lia.
Qed.

Lemma range_lookup (n : nat) (t : Z) :
  0 <= t < Z.of_nat n -> Py.range n !! Z.to_nat t = Some t.
Proof.
  intros Ht. unfold Py.range. rewrite list_lookup_fmap.
  rewrite lookup_seq_lt by lia. simpl. f_equal. lia.
Qed.

Lemma range_NoDup (n : nat) : NoDup (Py.range n).
Proof.
  unfold Py.range. apply NoDup_fmap_2; [|apply NoDup_seq].
  intros x y. lia.
Qed.

Lemma getitem_Ok {A} (l : list A) (i : Z) (x : A) :
  0 <= i -> l !! Z.to_nat i = Some x -> Py.getitem l i = Ok x.
Proof.
  intros Hi Hx. unfold Py.getitem.
  pose proof (lookup_lt_Some _ _ _ Hx) as Hlt.
  destruct (Z.ltb_spec i 0) as [?|_]; [lia|].
  destruct (Z.leb_spec 0 i) as [_|?]; [|lia].
  destruct (Z.ltb_spec i (Z.of_nat (length l))) as [_|?]; [|lia].
  simpl. now rewrite Hx.
Qed.

Lemma int_base2_digits (s : string) (n : Z) :
  (0 < Py.str_len s)%nat -> Py.int2_digits s 0 = Some n ->
  Py.int_base2 s = Ok n.
Proof.
  intros Hlen Hd. unfold Py.int_base2.
  destruct s; [simpl in Hlen; lia|]. now rewrite Hd.
Qed.

End Loop.

(** ** The index of the last word *)

Section LastIndex.

Lemma land_shift_low (t c : Z) :
  0 <= c < 16 -> Z.land (Z.shiftl t 4) c = 0.
Proof.
  intros Hc. apply Z.bits_inj'. intros n Hn.
  rewrite Z.land_spec, Z.bits_0.
  destruct (Z.lt_ge_cases n 4) as [Hlt|Hge].
  - rewrite Z.shiftl_spec_low by lia. reflexivity.
  - replace (Z.testbit c n) with false; [apply andb_false_r|].
    symmetry. apply Z.testbit_false; [lia|].
    assert (2 ^ 4 <= 2 ^ n) by (apply Z.pow_le_mono_r; lia).
    rewrite Z.div_small by lia. reflexivity.
Qed.

(** With a checksum of 4 bits the index is [16 * tail + checksum]. *)
Lemma last_word_index_add (t c : Z) :
  0 <= c < 16 -> Spec.last_word_index t c = t * 16 + c.
Proof.
  intros Hc. unfold Spec.last_word_index.
  rewrite <- (Z.add_nocarry_lor _ _ (land_shift_low t c Hc)).
  rewrite Z.shiftl_mul_pow2 by lia. reflexivity.
Qed.

Lemma last_word_index_tail (t c : Z) :
  0 <= c < 16 -> Z.shiftr (Spec.last_word_index t c) 4 = t.
Proof.
  intros Hc. rewrite last_word_index_add by exact Hc.
  rewrite Z.shiftr_div_pow2 by lia. change (2 ^ 4) with 16.
  rewrite Z.div_add_l by lia. rewrite Z.div_small by lia. lia.
Qed.

Lemma last_word_index_low (t c : Z) :
  0 <= c < 16 -> Z.land (Spec.last_word_index t c) 15 = c.
Proof.
  intros Hc. rewrite last_word_index_add by exact Hc.
  change 15 with (Z.ones 4). rewrite Z.land_ones by lia. change (2 ^ 4) with 16.
  rewrite Z.add_comm, Z_mod_plus_full. apply Z.mod_small. exact Hc.
Qed.

Lemma byte_shift_range (b : byte) : 0 <= Z.shiftr (Py.Z_of_byte b) 4 < 16.
Proof.
  pose proof (Z_of_byte_range b) as Hb.
  rewrite Z.shiftr_div_pow2 by lia. change (2 ^ 4) with 16.
  split; [apply Z.div_pos; lia|apply Z.div_lt_upper_bound; lia].
Qed.

Lemma checksum_range (sha256 : list byte -> list byte) (entropy : list bool) :
  0 <= Spec.checksum sha256 entropy < 16.
Proof.
  unfold Spec.checksum. destruct (sha256 _) as [|b ?]; [lia|].
  apply byte_shift_range.
Qed.

End LastIndex.

(** ** The enumeration on eleven words of the wordlist *)

Ltac step H := rewrite H, bind_Ok; cbv beta zeta.

(** The 16 bytes the program hashes are the specification's packing of
    the 128 entropy bits. *)
Lemma entropy_bytes (idxs : list Z) (tail : Z) :
  length idxs = 11%nat -> Forall (fun i => 0 <= i < 2048) idxs ->
  0 <= tail < 128 ->
  exists n,
    Py.int_base2 (Py.join "" (Py.format_b 11 <$> idxs) +:+ Py.format_b 7 tail)
      = Ok n /\
    Py.to_bytes 16 n =
      Ok (Spec.pack_bytes 16 (Spec.entropy_bits (Spec.bit_packer idxs) tail)).
Proof.
  intros Hlen Hr Ht.
  pose proof (value11_bounds idxs 0 Hr ltac:(lia)) as Hv. rewrite Hlen in Hv.
  exists (value11 0 idxs * 128 + tail). split.
  - apply int_base2_digits.
    + rewrite str_len_app, bits121_len, Hlen by exact Hr. simpl. lia.
    + rewrite int2_digits_app, bits121_int2 by exact Hr.
      rewrite format_b_int2 by (simpl; lia). reflexivity.
  - unfold Py.to_bytes.
    change (2048 ^ Z.of_nat 11) with (2 ^ 121) in Hv.
    change (2 ^ (8 * Z.of_nat 16)) with (2 ^ 121 * 128).
    destruct (Z.leb_spec 0 (value11 0 idxs * 128 + tail)) as [_|?]; [|lia].
    destruct (Z.ltb_spec (value11 0 idxs * 128 + tail) (2 ^ 121 * 128)) as [_|?];
      [|lia].
    simpl andb. cbv iota. f_equal. symmetry.
    rewrite pack_bytes_be.
    + f_equal. unfold Spec.entropy_bits.
      change (Spec.bits_value (Spec.bit_packer idxs ++ Spec.bits_be 7 tail))
        with (bits_fold 0 (Spec.bit_packer idxs ++ Spec.bits_be 7 tail)).
      rewrite bits_fold_app, bit_packer_fold by exact Hr.
      rewrite bits_be_fold by (simpl; lia). reflexivity.
    + unfold Spec.entropy_bits.
      rewrite length_app, bit_packer_len, bits_be_len, Hlen. reflexivity.
Qed.

Section Enumeration.

Variable sha256 : list byte -> list byte.
Hypothesis sha256_len : forall m, length (sha256 m) = 32%nat.

Variable mnemo : Mnemonic.
Hypothesis wordlist_len : length (wordlist mnemo) = 2048%nat.

Lemma indices_in_range (words : list string) (idxs : list Z) :
  lookup_all (word2idx_of (wordlist mnemo)) words = Ok idxs ->
  Forall (fun i => 0 <= i < 2048) idxs /\ length idxs = length words.
Proof.
  intros H. apply lookup_all_Ok in H. split.
  - induction H as [|w i ws js Hw _ IH]; constructor; [|exact IH].
    apply word2idx_Some in Hw. rewrite wordlist_len in Hw. lia.
  - symmetry. eapply Forall2_length, H.
Qed.

Lemma digest_first (m : list byte) :
  exists d0, Py.getitem (sha256 m) 0 = Ok d0 /\
             Z.shiftr (Py.Z_of_byte d0) 4 =
             match sha256 m with b :: _ => Z.shiftr (Py.Z_of_byte b) 4 | [] => 0 end.
Proof.
  pose proof (sha256_len m) as Hl.
  destruct (sha256 m) as [|b rest] eqn:E; [discriminate|].
  exists b. split; [|reflexivity]. now apply getitem_Ok.
Qed.

Lemma spec_index_range (idxs : list Z) (tail : Z) :
  0 <= tail < 128 -> 0 <= spec_index sha256 idxs tail < 2048.
Proof.
  clear sha256_len wordlist_len. intros Ht. unfold spec_index.
  pose proof (checksum_range sha256
                (Spec.entropy_bits (Spec.bit_packer idxs) tail)) as Hc.
  rewrite last_word_index_add by exact Hc. lia.
Qed.

Lemma wordlist_getitem (index : Z) :
  0 <= index < 2048 ->
  Py.getitem (wordlist mnemo) index = Ok (spec_word (wordlist mnemo) index) /\
  wordlist mnemo !! Z.to_nat index = Some (spec_word (wordlist mnemo) index).
Proof.
  intros Hi. unfold spec_word.
  destruct (lookup_lt_is_Some_2 (wordlist mnemo) (Z.to_nat index)) as [w Hw];
    [rewrite wordlist_len; lia|].
  rewrite Hw. simpl. split; [apply getitem_Ok; [lia|exact Hw]|reflexivity].
Qed.

(** On eleven words of the wordlist the enumeration succeeds, and its
    result is the list of the specification's candidates for the tails
    0 to 127, in this order. *)
Lemma enumerate_ok (words11 : list string) :
  length words11 = 11%nat ->
  Forall (fun w => w ∈ wordlist mnemo) words11 ->
  exists idxs,
    lookup_all (word2idx_of (wordlist mnemo)) words11 = Ok idxs /\
    length idxs = 11%nat /\
    Forall (fun i => 0 <= i < 2048) idxs /\
    all_last_words_from_11 sha256 mnemo words11 =
      Ok (spec_candidate sha256 mnemo words11 idxs <$> Py.range 128).
Proof.
  intros Hlen Hin.
  destruct (lookup_all_total (word2idx_of (wordlist mnemo)) words11) as [idxs Hidx].
  { eapply Forall_impl; [exact Hin|]. intros w. apply word2idx_is_Some. }
  destruct (indices_in_range _ _ Hidx) as [Hr Hl]. rewrite Hlen in Hl.
  exists idxs. repeat split; [exact Hidx|exact Hl|exact Hr|].
  unfold all_last_words_from_11. rewrite Hlen. simpl negb. cbv iota zeta.
  unfold lookup_indices. step Hidx.
  rewrite bits121_len, Hl by exact Hr. simpl negb. cbv iota.
  rewrite (for_each_collect _ (spec_candidate sha256 mnemo words11 idxs));
    [reflexivity|].
  intros out tail Ht. apply elem_of_range in Ht.
  destruct (entropy_bytes idxs tail Hl Hr ltac:(lia)) as (n & Hn & Hb).
  step Hn. step Hb.
  destruct (digest_first
              (Spec.pack_bytes 16 (Spec.entropy_bits (Spec.bit_packer idxs) tail)))
    as (d0 & Hd & Hc).
  step Hd. rewrite Hc.
  change (Z.lor (Z.shiftl tail 4) _) with (spec_index sha256 idxs tail).
  destruct (wordlist_getitem (spec_index sha256 idxs tail)) as [Hw _];
    [apply spec_index_range; lia|].
  step Hw. reflexivity.
Qed.

End Enumeration.

(** ** Phrases: joining and splitting on spaces *)

Section Phrases.

Lemma split_on_go_cons (sep c : ascii) (s : string) (cur : list ascii) :
  Py.split_on_go sep (String c s) cur =
  if Ascii.eqb c sep
  then string_of_list_ascii (rev cur) :: Py.split_on_go sep s []
  else Py.split_on_go sep s (c :: cur).
Proof. reflexivity. Qed.

Lemma contains_cons (c d : ascii) (s : string) :
  Py.contains c (String d s) = Ascii.eqb c d || Py.contains c s.
Proof. reflexivity. Qed.

Lemma split_on_go_word (w s : string) (cur : list ascii) :
  Py.contains " " w = false ->
  Py.split_on_go " " (w +:+ s) cur =
  Py.split_on_go " " s (rev (list_ascii_of_string w) ++ cur).
Proof.
  revert cur. induction w as [|c w IH]; intros cur Hw; [reflexivity|].
  rewrite contains_cons in Hw. apply orb_false_elim in Hw as [Hc Hw].
  rewrite app_cons, split_on_go_cons, Ascii.eqb_sym, Hc.
  rewrite IH by exact Hw.
  simpl list_ascii_of_string. simpl rev. now rewrite <- app_assoc.
Qed.

(** Words without spaces, joined with spaces, split back into the same
    words. *)
Lemma split_join (ws : list string) :
  ws <> [] -> Forall (fun w => Py.contains " " w = false) ws ->
  Py.split_on " " (Py.join " " ws) = ws.
Proof.
  unfold Py.split_on. induction ws as [|w ws IH]; intros Hne Hws; [congruence|].
  apply Forall_cons in Hws as [Hw Hws].
  destruct ws as [|w' ws].
  - simpl Py.join. rewrite <- (app_empty_r w) at 1.
    rewrite split_on_go_word by exact Hw. simpl.
    rewrite app_nil_r, rev_involutive, string_of_list_ascii_of_string.
    reflexivity.
  - change (Py.join " " (w :: w' :: ws))
      with (w +:+ " " +:+ Py.join " " (w' :: ws)).
    rewrite split_on_go_word by exact Hw.
    rewrite app_cons, app_empty_l, split_on_go_cons, Ascii.eqb_refl.
    rewrite app_nil_r, rev_involutive, string_of_list_ascii_of_string.
    f_equal. apply IH; [congruence|exact Hws].
Qed.

End Phrases.

(** ** The Validator on the candidates *)

Section Validator.

Variable sha256 : list byte -> list byte.
Variable wl : list string.
Hypothesis wl_len : length wl = 2048%nat.
Hypothesis wl_nodup : NoDup wl.
Hypothesis wl_nospace : Forall (fun w => Py.contains " " w = false) wl.

Lemma nospace_of_elem (ws : list string) :
  Forall (fun w => w ∈ wl) ws ->
  Forall (fun w => Py.contains " " w = false) ws.
Proof.
  intros H. eapply Forall_impl; [exact H|]. intros w Hw. simpl in Hw.
  rewrite Forall_forall in wl_nospace. now apply wl_nospace.
Qed.

Lemma word_indices_snoc (ws : list string) (idxs : list Z) (w : string) (i : Z) :
  Spec.word_indices wl ws = Some idxs -> Spec.word_index wl w = Some i ->
  Spec.word_indices wl (ws ++ [w]) = Some (idxs ++ [i]).
Proof.
  revert idxs. induction ws as [|v ws IH]; intros idxs H Hw; simpl in H.
  - injection H as <-. simpl. now rewrite Hw.
  - simpl. destruct (Spec.word_index wl v) as [j|]; [|discriminate].
    destruct (Spec.word_indices wl ws) as [rest|]; [|discriminate].
    injection H as <-. now rewrite (IH rest eq_refl Hw).
Qed.

Lemma word_indices_snoc_inv (ws : list string) (w : string) (all : list Z) :
  Spec.word_indices wl (ws ++ [w]) = Some all ->
  exists idxs i, all = idxs ++ [i] /\ Spec.word_indices wl ws = Some idxs /\
                 Spec.word_index wl w = Some i.
Proof.
  revert all. induction ws as [|v ws IH]; intros all H; simpl in H.
  - destruct (Spec.word_index wl w) as [i|]; [|discriminate].
    injection H as <-. exists [], i. repeat split.
  - destruct (Spec.word_index wl v) as [j|] eqn:Hv; [|discriminate].
    destruct (Spec.word_indices wl (ws ++ [w])) as [rest|]; [|discriminate].
    injection H as <-.
    destruct (IH rest eq_refl) as (idxs & i & -> & Hi & Hw).
    exists (j :: idxs), i. simpl. rewrite Hv, Hi. repeat split. exact Hw.
Qed.

Lemma word_index_lookup (w : string) (i : Z) :
  Spec.word_index wl w = Some i ->
  0 <= i < 2048 /\ wl !! Z.to_nat i = Some w.
Proof.
  rewrite word_index_word2idx by exact wl_nodup. intros H.
  apply word2idx_Some in H. rewrite wl_len in H. exact H.
Qed.

(** What the Validator answers on a phrase of eleven words and one
    more, all of the wordlist. *)
Lemma validator_phrase (words11 : list string) (idxs : list Z) (w12 : string)
    (i12 : Z) :
  length words11 = 11%nat ->
  Forall (fun w => w ∈ wl) words11 ->
  Spec.word_indices wl words11 = Some idxs ->
  Spec.word_index wl w12 = Some i12 ->
  Spec.validator sha256 wl (spec_phrase words11 w12) =
  (Spec.checksum sha256
     (Spec.entropy_bits (Spec.bit_packer idxs) (Z.shiftr i12 4))
   =? Z.land i12 15).
Proof.
  intros Hlen Hin Hidx Hw12.
  assert (Hl : length idxs = 11%nat).
  { clear Hin. rewrite <- Hlen. clear Hlen. revert idxs Hidx.
    induction words11 as [|v ws IH]; intros idxs H; simpl in H.
    - now injection H as <-.
    - destruct (Spec.word_index wl v); [|discriminate].
      destruct (Spec.word_indices wl ws) as [rest|]; [|discriminate].
      injection H as <-. simpl. now rewrite (IH rest eq_refl). }
  destruct (word_index_lookup w12 i12 Hw12) as [_ Hl12].
  unfold Spec.validator, spec_phrase. rewrite split_join.
  - rewrite length_app, Hlen. simpl negb. cbv iota.
    rewrite (word_indices_snoc _ _ _ _ Hidx Hw12).
    rewrite take_app_length' by (symmetry; exact Hl).
    rewrite app_nth2 by lia. rewrite Hl. reflexivity.
  - destruct words11; discriminate.
  - apply Forall_app. split; [now apply nospace_of_elem|].
    constructor; [|constructor].
    rewrite Forall_forall in wl_nospace. apply wl_nospace.
    apply list_elem_of_lookup. eauto.
Qed.

(** The Validator accepts the phrase of every candidate. *)
Lemma validator_candidate (words11 : list string) (idxs : list Z) (tail : Z) :
  length words11 = 11%nat ->
  Forall (fun w => w ∈ wl) words11 ->
  lookup_all (word2idx_of wl) words11 = Ok idxs ->
  0 <= tail < 128 ->
  Spec.validator sha256 wl
    (spec_phrase words11 (spec_word wl (spec_index sha256 idxs tail))) = true.
Proof.
  intros Hlen Hin Hidx Ht.
  set (c := Spec.checksum sha256 (Spec.entropy_bits (Spec.bit_packer idxs) tail)).
  assert (Hc : 0 <= c < 16) by apply checksum_range.
  assert (Hi : 0 <= spec_index sha256 idxs tail < 2048).
  { unfold spec_index. fold c. rewrite last_word_index_add by exact Hc. lia. }
  assert (Hw : wl !! Z.to_nat (spec_index sha256 idxs tail)
               = Some (spec_word wl (spec_index sha256 idxs tail))).
  { unfold spec_word.
    destruct (lookup_lt_is_Some_2 wl (Z.to_nat (spec_index sha256 idxs tail)))
      as [w Hw]; [rewrite wl_len; lia|]. now rewrite Hw. }
  rewrite (validator_phrase words11 idxs _ (spec_index sha256 idxs tail) Hlen Hin).
  - unfold spec_index. fold c.
    rewrite last_word_index_tail, last_word_index_low by exact Hc.
    fold c. apply Z.eqb_refl.
  - now apply word_indices_lookup_all.
  - rewrite word_index_word2idx by exact wl_nodup.
    rewrite (word2idx_nodup wl _ _ wl_nodup Hw). f_equal. lia.
Qed.

(** A phrase the Validator accepts ends with the candidate of the tail
    its twelfth index carries. *)
Lemma validator_genuine (words11 : list string) (idxs : list Z) (w12 : string) :
  length words11 = 11%nat ->
  Forall (fun w => w ∈ wl) words11 ->
  lookup_all (word2idx_of wl) words11 = Ok idxs ->
  w12 ∈ wl ->
  Spec.validator sha256 wl (spec_phrase words11 w12) = true ->
  exists tail, 0 <= tail < 128 /\
               w12 = spec_word wl (spec_index sha256 idxs tail).
Proof.
  intros Hlen Hin Hidx Hin12 Hv.
  pose proof (word_indices_lookup_all wl words11 idxs wl_nodup Hidx) as Hsi.
  destruct (word2idx_is_Some wl w12 Hin12) as [i12 Hw12].
  rewrite <- word_index_word2idx in Hw12 by exact wl_nodup.
  rewrite (validator_phrase words11 idxs w12 i12 Hlen Hin Hsi Hw12) in Hv.
  apply Z.eqb_eq in Hv.
  destruct (word_index_lookup w12 i12 Hw12) as [Hr Hl].
  exists (Z.shiftr i12 4).
  assert (Hs : Z.shiftr i12 4 = i12 / 16)
    by (rewrite Z.shiftr_div_pow2 by lia; reflexivity).
  assert (Hm : Z.land i12 15 = i12 mod 16)
    by (change 15 with (Z.ones 4); rewrite Z.land_ones by lia; reflexivity).
  split.
  - rewrite Hs. split; [apply Z.div_pos; lia|apply Z.div_lt_upper_bound; lia].
  - unfold spec_index. rewrite Hv.
    rewrite last_word_index_add by (rewrite Hm; apply Z.mod_pos_bound; lia).
    rewrite Hs, Hm.
    replace (i12 / 16 * 16 + i12 mod 16) with i12
      by (rewrite (Z.div_mod i12 16) at 1 by lia; lia).
    unfold spec_word. now rewrite Hl.
Qed.

End Validator.

(** ** What the primitives can raise *)

Ltac stage H :=
  match type of H with
  | mbind _ ?m = _ =>
      let E := fresh "E" in
      destruct m eqn:E;
      [rewrite bind_Ok in H; cbv beta zeta in H | rewrite bind_Raise in H]
  end.

Section Raises.

Lemma int_base2_raises (s : string) (e : exn) :
  Py.int_base2 s = Raise e -> exists msg, e = ValueError msg.
Proof.
  unfold Py.int_base2. intros H.
  destruct s; [injection H as <-; eauto|].
  destruct (Py.int2_digits _ 0); [discriminate|]. injection H as <-. eauto.
Qed.

Lemma to_bytes_raises (k : nat) (n : Z) (e : exn) :
  Py.to_bytes k n = Raise e -> e = OverflowError.
Proof.
  unfold Py.to_bytes. destruct (_ && _); [discriminate|]. now intros [= <-].
Qed.

Lemma getitem_raises {A} (l : list A) (i : Z) (e : exn) :
  Py.getitem l i = Raise e -> e = IndexError.
Proof.
  unfold Py.getitem. destruct (_ && _); [|now intros [= <-]].
  destruct (l !! _); [discriminate|now intros [= <-]].
Qed.

Lemma lookup_indices_raises (m : gmap string Z) (ws : list string) (e : exn) :
  lookup_indices m ws = Raise e -> exists msg, e = ValueError msg.
Proof.
  unfold lookup_indices. intros H.
  destruct (lookup_all m ws) as [idxs|e'] eqn:Hl; [discriminate|].
  apply lookup_all_Raise in Hl as (pre & w & post & _ & -> & _).
  injection H as <-. eauto.
Qed.

Lemma lookup_indices_Ok (m : gmap string Z) (ws : list string) (idxs : list Z) :
  lookup_indices m ws = Ok idxs -> lookup_all m ws = Ok idxs.
Proof.
  unfold lookup_indices. destruct (lookup_all m ws) as [?|[]]; congruence.
Qed.

End Raises.

(** ** The sibling, [all_12word_mnemonics_from_11] *)

Section Sibling.

Variable sha256 : list byte -> list byte.
Hypothesis sha256_len : forall m, length (sha256 m) = 32%nat.

Variable english : Mnemonic.
Hypothesis wordlist_len : length (wordlist english) = 2048%nat.

(** When [check] accepts every candidate, the sibling returns the 128
    phrases of the candidates. *)
Lemma sibling_ok (words11 : list string) (idxs : list Z) :
  length words11 = 11%nat ->
  lookup_all (word2idx_of (wordlist english)) words11 = Ok idxs ->
  (forall tail, 0 <= tail < 128 ->
     check english
       (spec_phrase words11
          (spec_word (wordlist english) (spec_index sha256 idxs tail))) = true) ->
  all_12word_mnemonics_from_11 sha256 english words11 =
    Ok ((fun tail =>
           spec_phrase words11
             (spec_word (wordlist english) (spec_index sha256 idxs tail)))
          <$> Py.range 128).
Proof.
  intros Hlen Hidx Hcheck.
  destruct (indices_in_range english wordlist_len _ _ Hidx) as [Hr Hl].
  rewrite Hlen in Hl.
  unfold all_12word_mnemonics_from_11. rewrite Hlen. simpl negb. cbv iota zeta.
  unfold lookup_indices. step Hidx.
  rewrite bits121_len, Hl by exact Hr. simpl negb. cbv iota.
  rewrite (for_each_collect _
             (fun tail => spec_phrase words11
                (spec_word (wordlist english) (spec_index sha256 idxs tail))));
    [reflexivity|].
  intros out tail Ht. apply elem_of_range in Ht.
  destruct (entropy_bytes idxs tail Hl Hr ltac:(lia)) as (n & Hn & Hb).
  step Hn. step Hb.
  destruct (digest_first sha256 sha256_len
              (Spec.pack_bytes 16 (Spec.entropy_bits (Spec.bit_packer idxs) tail)))
    as (d0 & Hd & Hc).
  step Hd. rewrite Hc.
  change (Z.lor (Z.shiftl tail 4) _) with (spec_index sha256 idxs tail).
  destruct (wordlist_getitem english wordlist_len (spec_index sha256 idxs tail))
    as [Hw _]; [apply spec_index_range; lia|].
  step Hw.
  change (Py.join " " (words11 ++ [?w])) with (spec_phrase words11 w).
  rewrite Hcheck by lia. reflexivity.
Qed.

End Sibling.

(** ** The concrete collaborators *)

Section Concrete.

Lemma sha256_is_hash : is_hash SHA256.sha256.
Proof.
  intros m. unfold SHA256.sha256.
  destruct (SHA256.process _ _ _) as [[[[[[[a b] c] d] e] f] g] h].
  unfold SHA256.digest_of. rewrite !length_app, !bytes_be_len. reflexivity.
Qed.

(** The hash on the messages [abc], the empty message, and 16 zero
    bytes (the entropy of the first candidate of [demo_words11]). *)
Example sha256_abc :
  SHA256.digest_value (SHA256.sha256 [x61; x62; x63]) =
  0xba7816bf8f01cfea414140de5dae2223b00361a396177a9cb410ff61f20015ad.
Proof. vm_compute. reflexivity. Qed.

Example sha256_empty :
  SHA256.digest_value (SHA256.sha256 []) =
  0xe3b0c44298fc1c149afbf4c8996fb92427ae41e4649b934ca495991b7852b855.
Proof. vm_compute. reflexivity. Qed.

Example sha256_zero16 :
  SHA256.digest_value (SHA256.sha256 (replicate 16 x00)) =
  0x374708fff7719dd5979ec875d56cd2286f6d3cf7ec317a3b25632aab28ec37bb.
Proof. vm_compute. reflexivity. Qed.

Lemma range_len (n : nat) : length (Py.range n) = n.
Proof. unfold Py.range. now rewrite length_fmap, length_seq. Qed.

Lemma demo_word_inj (i j : Z) :
  0 <= i < 2048 -> 0 <= j < 2048 -> demo_word i = demo_word j -> i = j.
Proof.
  intros Hi Hj H. unfold demo_word in H. injection H as H.
  pose proof (format_b_int2 11 i 0 ltac:(simpl; lia) ltac:(lia)) as Ei.
  pose proof (format_b_int2 11 j 0 ltac:(simpl; lia) ltac:(lia)) as Ej.
  rewrite H in Ei. rewrite Ei in Ej. injection Ej as Ej. lia.
Qed.

Lemma demo_wordlist_reference : reference_wordlist demo_wordlist.
Proof.
  split.
  - unfold demo_wordlist. now rewrite length_fmap, range_len.
  - unfold demo_wordlist. apply NoDup_fmap_2_strong; [|apply range_NoDup].
    intros i j Hi Hj. apply elem_of_range in Hi, Hj.
    apply demo_word_inj; lia.
  - apply Forall_forall. intros w Hw.
    assert (H : forallb (fun w => negb (Py.contains " " w)) demo_wordlist = true)
      by (vm_compute; reflexivity).
    rewrite forallb_forall in H. apply list_elem_of_In in Hw.
    specialize (H w Hw). now destruct (Py.contains " " w).
Qed.

Lemma demo_word_elem (i : Z) : 0 <= i < 2048 -> demo_word i ∈ demo_wordlist.
Proof.
  intros Hi. unfold demo_wordlist. apply list_elem_of_fmap.
  exists i. split; [reflexivity|]. apply elem_of_range. lia.
Qed.

Lemma demo_words11_valid : valid_words11 demo_wordlist demo_words11.
Proof.
  split; [reflexivity|]. unfold demo_words11.
  apply Forall_forall. intros w Hw. apply elem_of_replicate in Hw as [-> _].
  apply demo_word_elem. lia.
Qed.

Lemma demo_check : check_is_validator SHA256.sha256 demo_mnemo.
Proof. intros phrase. reflexivity. Qed.

End Concrete.

(** ** The verdicts of [check] on the candidates *)

Section Verdicts.

Variable sha256 : list byte -> list byte.
Hypothesis sha256_ok : is_hash sha256.
Variable mnemo : Mnemonic.
Hypothesis wl_ok : reference_wordlist (wordlist mnemo).
Hypothesis check_ok : check_is_validator sha256 mnemo.

(** With the Validator for [check], every candidate is accepted. *)
Lemma enumerate_valid (words11 : list string) :
  valid_words11 (wordlist mnemo) words11 ->
  exists idxs,
    lookup_all (word2idx_of (wordlist mnemo)) words11 = Ok idxs /\
    all_last_words_from_11 sha256 mnemo words11 =
      Ok (spec_candidate sha256 mnemo words11 idxs <$> Py.range 128) /\
    forall tail, 0 <= tail < 128 ->
      check mnemo
        (spec_phrase words11
           (spec_word (wordlist mnemo) (spec_index sha256 idxs tail))) = true.
Proof.
  intros [Hlen Hin]. destruct wl_ok as [Hl Hnd Hns].
  destruct (enumerate_ok sha256 sha256_ok mnemo Hl words11 Hlen Hin)
    as (idxs & Hidx & _ & _ & Hout).
  exists idxs. repeat split; [exact Hidx|exact Hout|].
  intros tail Ht. rewrite check_ok.
  now apply validator_candidate.
Qed.

End Verdicts.

Section Filter.

Lemma valid_candidates_all (cands : list candidate) :
  Forall (fun c => cand_ok c = true) cands -> valid_candidates cands = cands.
Proof.
  unfold valid_candidates. induction 1 as [|c cands Hc _ IH]; [reflexivity|].
  rewrite filter_cons_True by exact Hc. now rewrite IH.
Qed.

Lemma valid_candidates_none (cands : list candidate) :
  Forall (fun c => cand_ok c = false) cands -> valid_candidates cands = [].
Proof.
  unfold valid_candidates. induction 1 as [|c cands Hc _ IH]; [reflexivity|].
  rewrite filter_cons_False by (rewrite Hc; discriminate). exact IH.
Qed.

Lemma normalize_eleven (words : list string) :
  length words = 11%nat -> normalize_words_arg words = words.
Proof. intros H. unfold normalize_words_arg. now rewrite H. Qed.

End Filter.

(** * The claims of the specification *)

Section Claims.

Lemma candidates_lookup (sha256 : list byte -> list byte) (mnemo : Mnemonic)
    (words11 : list string) (idxs : list Z) (tail : Z) :
  0 <= tail < 128 ->
  (spec_candidate sha256 mnemo words11 idxs <$> Py.range 128) !! Z.to_nat tail
  = Some (spec_candidate sha256 mnemo words11 idxs tail).
Proof.
  intros Ht. rewrite list_lookup_fmap, range_lookup by (simpl; lia). reflexivity.
Qed.


(** C1. For every tail in [0, 127] the candidate the enumerator returns
    at that position is the specification's: the entropy is the 121 bits
    of the Bit Packer followed by the 7 bits of the tail, 128 bits that
    are packed most significant bit first into 16 bytes; the checksum is
    the first byte of their SHA-256 shifted right by 4; the index of the
    last word is [(tail << 4) | checksum]; the last word is the wordlist
    entry at this index. *)
Theorem C1_candidate_as_specified (sha256 : list byte -> list byte)
    (mnemo : Mnemonic) (words11 : list string) (tail : Z) :
  is_hash sha256 ->
  reference_wordlist (wordlist mnemo) ->
  valid_words11 (wordlist mnemo) words11 ->
  0 <= tail <= 127 ->
  exists out idxs word,
    all_last_words_from_11 sha256 mnemo words11 = Ok out /\
    Spec.word_indices (wordlist mnemo) words11 = Some idxs /\
    let entropy := Spec.entropy_bits (Spec.bit_packer idxs) tail in
    let checksum := Spec.checksum sha256 entropy in
    let last_index := Spec.last_word_index tail checksum in
    length entropy = 128%nat /\
    Py.int_base2 (Py.join "" (Py.format_b 11 <$> idxs) +:+ Py.format_b 7 tail)
      ≫= Py.to_bytes 16 = Ok (Spec.pack_bytes 16 entropy) /\
    wordlist mnemo !! Z.to_nat last_index = Some word /\
    out !! Z.to_nat tail =
      Some (tail, last_index, word, check mnemo (Py.join " " (words11 ++ [word]))).
Proof.
  intros Hsha [Hl Hnd Hns] [Hlen Hin] Ht.
  destruct (enumerate_ok sha256 Hsha mnemo Hl words11 Hlen Hin)
    as (idxs & Hidx & Hl11 & Hr & Hout).
  exists (spec_candidate sha256 mnemo words11 idxs <$> Py.range 128), idxs,
         (spec_word (wordlist mnemo) (spec_index sha256 idxs tail)).
  split; [exact Hout|]. split; [now apply word_indices_lookup_all|].
  cbv zeta. split; [|split; [|split]].
  - unfold Spec.entropy_bits.
    rewrite length_app, bit_packer_len, bits_be_len, Hl11. reflexivity.
  - destruct (entropy_bytes idxs tail Hl11 Hr ltac:(lia)) as (n & Hn & Hb).
    rewrite Hn, bind_Ok. exact Hb.
  - apply (wordlist_getitem mnemo Hl). apply spec_index_range. lia.
  - rewrite candidates_lookup by lia. reflexivity.
Qed.

Lemma C1_witness :
  exists out word,
    all_last_words_from_11 SHA256.sha256 demo_mnemo demo_words11 = Ok out /\
    out !! 5%nat =
      Some (5,
            Spec.last_word_index 5
              (Spec.checksum SHA256.sha256
                 (Spec.entropy_bits (Spec.bit_packer (replicate 11 0)) 5)),
            word,
            check demo_mnemo (Py.join " " (demo_words11 ++ [word]))).
Proof.
  destruct (C1_candidate_as_specified SHA256.sha256 demo_mnemo demo_words11 5
              sha256_is_hash demo_wordlist_reference demo_words11_valid
              ltac:(lia))
    as (out & idxs & word & Hout & Hidx & _ & _ & _ & Hc).
  exists out, word. split; [exact Hout|].
  assert (Hi : idxs = replicate 11 0).
  { assert (E : Spec.word_indices (wordlist demo_mnemo) demo_words11
                = Some (replicate 11 0)) by (vm_compute; reflexivity).
    congruence. }
  rewrite <- Hi. exact Hc.
Defined.



(** C3. With the Validator for [check], every candidate the enumerator
    produces from eleven words of the wordlist has [IsValid = true]: the
    Validator recomputes, from the twelve indices of the full phrase, a
    checksum equal to the low 4 bits of the twelfth index, which are the
    checksum the candidate was built with.  The sibling, which raises
    when a check fails, returns the 128 phrases. *)
Theorem C3_every_candidate_validates (sha256 : list byte -> list byte)
    (mnemo : Mnemonic) (words11 : list string) :
  is_hash sha256 ->
  reference_wordlist (wordlist mnemo) ->
  check_is_validator sha256 mnemo ->
  valid_words11 (wordlist mnemo) words11 ->
  exists out idxs,
    all_last_words_from_11 sha256 mnemo words11 = Ok out /\
    Spec.word_indices (wordlist mnemo) words11 = Some idxs /\
    length out = 128%nat /\
    Forall (fun c =>
              cand_ok c = true /\
              Spec.validator sha256 (wordlist mnemo)
                (Py.join " " (words11 ++ [cand_word c])) = true /\
              Z.land (cand_index c) 15 =
                Spec.checksum sha256
                  (Spec.entropy_bits (Spec.bit_packer idxs) (cand_tail c))) out /\
    all_12word_mnemonics_from_11 sha256 mnemo words11 =
      Ok ((fun c => Py.join " " (words11 ++ [cand_word c])) <$> out).
Proof.
  intros Hsha Hwl Hcheck Hw.
  destruct (enumerate_valid sha256 Hsha mnemo Hwl Hcheck words11 Hw)
    as (idxs & Hidx & Hout & Hv).
  destruct Hw as [Hlen Hin].
  exists (spec_candidate sha256 mnemo words11 idxs <$> Py.range 128), idxs.
  split; [exact Hout|].
  split; [apply word_indices_lookup_all; [apply Hwl|exact Hidx]|].
  split; [now rewrite length_fmap, range_len|].
  split.
  - apply Forall_fmap, Forall_forall. intros tail Ht. apply elem_of_range in Ht.
    simpl in Ht. unfold spec_candidate, cand_ok, cand_word, cand_index, cand_tail.
    simpl. split; [apply Hv; lia|]. split.
    + rewrite <- Hcheck. apply Hv. lia.
    + unfold spec_index. apply last_word_index_low, checksum_range.
  - rewrite (sibling_ok sha256 Hsha mnemo (ref_len _ Hwl) words11 idxs Hlen Hidx Hv).
    apply (f_equal Ok). rewrite <- list_fmap_compose.
    apply list_fmap_ext. intros i x _. reflexivity.
Qed.

Lemma C3_witness :
  exists out,
    all_last_words_from_11 SHA256.sha256 demo_mnemo demo_words11 = Ok out /\
    Forall (fun c => cand_ok c = true) out.
Proof.
  destruct (C3_every_candidate_validates SHA256.sha256 demo_mnemo demo_words11
              sha256_is_hash demo_wordlist_reference demo_check
              demo_words11_valid)
    as (out & idxs & Hout & _ & _ & Hall & _).
  exists out. split; [exact Hout|].
  eapply Forall_impl; [exact Hall|]. intros c H. apply H.
Defined.

Lemma candidates_all_valid (sha256 : list byte -> list byte) (mnemo : Mnemonic)
    (words11 : list string) (idxs : list Z) :
  (forall tail, 0 <= tail < 128 ->
     check mnemo
       (spec_phrase words11
          (spec_word (wordlist mnemo) (spec_index sha256 idxs tail))) = true) ->
  valid_candidates (spec_candidate sha256 mnemo words11 idxs <$> Py.range 128)
  = spec_candidate sha256 mnemo words11 idxs <$> Py.range 128.
Proof.
  intros Hv. apply valid_candidates_all, Forall_fmap, Forall_forall.
  intros tail Ht. apply elem_of_range in Ht. simpl in Ht.
  apply Hv. lia.
Qed.

(** The run on the eleven words [demo_words11], the prefix of a phrase
    the Validator accepts: all 128 candidates are valid, not exactly
    one. *)
Lemma all_valid_on_demo_words :
  Spec.validator SHA256.sha256 demo_wordlist
    (Py.join " " (demo_words11 ++ [demo_word 3])) = true /\
  exists out,
    all_last_words_from_11 SHA256.sha256 demo_mnemo demo_words11 = Ok out /\
    length (valid_candidates out) = 128%nat /\
    ~ (length (valid_candidates out) <= 1)%nat.
Proof.
  split; [vm_compute; reflexivity|].
  destruct (enumerate_valid SHA256.sha256 sha256_is_hash demo_mnemo
              demo_wordlist_reference demo_check demo_words11
              demo_words11_valid) as (idxs & _ & Hout & Hv).
  exists (spec_candidate SHA256.sha256 demo_mnemo demo_words11 idxs
            <$> Py.range 128).
  split; [exact Hout|].
  rewrite candidates_all_valid by exact Hv.
  rewrite length_fmap, range_len. split; [reflexivity|lia].
Qed.

(** C4. What the code does where the claim asks for exactly one valid
    candidate: with the Validator for [check], all 128 candidates
    produced from eleven words of the wordlist have [IsValid = true];
    when the eleven words are the prefix of a 12-word phrase that the
    Validator accepts, the twelfth word of the phrase is the last word
    of one of these 128 valid candidates, not of the only one. *)
Theorem C4_all_valid_genuine_among (sha256 : list byte -> list byte)
    (mnemo : Mnemonic) (words11 : list string) :
  is_hash sha256 ->
  reference_wordlist (wordlist mnemo) ->
  check_is_validator sha256 mnemo ->
  valid_words11 (wordlist mnemo) words11 ->
  exists out,
    all_last_words_from_11 sha256 mnemo words11 = Ok out /\
    length (valid_candidates out) = 128%nat /\
    forall w12,
      w12 ∈ wordlist mnemo ->
      Spec.validator sha256 (wordlist mnemo) (Py.join " " (words11 ++ [w12]))
        = true ->
      exists c, c ∈ valid_candidates out /\ cand_word c = w12.
Proof.
  intros Hsha Hwl Hcheck Hw.
  destruct (enumerate_valid sha256 Hsha mnemo Hwl Hcheck words11 Hw)
    as (idxs & Hidx & Hout & Hv).
  destruct Hw as [Hlen Hin]. destruct Hwl as [Hl Hnd Hns].
  exists (spec_candidate sha256 mnemo words11 idxs <$> Py.range 128).
  split; [exact Hout|].
  rewrite candidates_all_valid by exact Hv.
  split; [now rewrite length_fmap, range_len|].
  intros w12 Hin12 Hgen.
  destruct (validator_genuine sha256 (wordlist mnemo) Hl Hnd Hns words11 idxs w12
              Hlen Hin Hidx Hin12 Hgen) as (tail & Ht & ->).
  exists (spec_candidate sha256 mnemo words11 idxs tail).
  split; [|reflexivity].
  apply list_elem_of_fmap. exists tail. split; [reflexivity|].
  apply elem_of_range. simpl. lia.
Qed.

Lemma C4_witness :
  exists out,
    all_last_words_from_11 SHA256.sha256 demo_mnemo demo_words11 = Ok out /\
    length (valid_candidates out) = 128%nat /\
    exists c, c ∈ valid_candidates out /\ cand_word c = demo_word 3.
Proof.
  destruct (C4_all_valid_genuine_among SHA256.sha256 demo_mnemo demo_words11
              sha256_is_hash demo_wordlist_reference demo_check
              demo_words11_valid) as (out & Hout & Hn & Hgen).
  exists out. split; [exact Hout|]. split; [exact Hn|].
  apply Hgen; [apply demo_word_elem; lia|vm_compute; reflexivity].
Defined.

(** C5. A word list whose length is not 11 makes the enumeration, in
    both files, raise the word-count error, whose message reports the
    length received; nothing else is returned. *)
Theorem C5_invalid_word_count (sha256 : list byte -> list byte)
    (mnemo : Mnemonic) (words : list string) :
  length words <> 11%nat ->
  let error :=
    ValueError ("Expected exactly 11 words, got "
                  +:+ Py.str_of_Z (Z.of_nat (length words)) +:+ ".") in
  all_last_words_from_11 sha256 mnemo words = Raise error /\
  all_12word_mnemonics_from_11 sha256 mnemo words = Raise error.
Proof.
  intros Hne. cbv zeta.
  unfold all_last_words_from_11, all_12word_mnemonics_from_11.
  destruct (Nat.eqb_spec (length words) 11) as [?|_]; [contradiction|].
  split; reflexivity.
Qed.

Lemma C5_witness :
  all_last_words_from_11 SHA256.sha256 demo_mnemo ["abandon"; "ability"; "able"]
  = Raise (ValueError "Expected exactly 11 words, got 3.").
Proof.
  apply (C5_invalid_word_count SHA256.sha256 demo_mnemo
           ["abandon"; "ability"; "able"]).
  simpl. lia.
Defined.

(** The unknown-word error is raised before the loop, for the first
    word the wordlist does not have, and names
    [str(e).strip("'")]. *)
Lemma unknown_word_raises (sha256 : list byte -> list byte) (mnemo : Mnemonic)
    (pre post : list string) (w : string) :
  length (pre ++ w :: post) = 11%nat ->
  Forall (fun v => v ∈ wordlist mnemo) pre ->
  w ∉ wordlist mnemo ->
  let error := ValueError (msg_word (Py.strip Py.squote (Py.repr w))) in
  all_last_words_from_11 sha256 mnemo (pre ++ w :: post) = Raise error /\
  all_12word_mnemonics_from_11 sha256 mnemo (pre ++ w :: post) = Raise error.
Proof.
  intros Hlen Hpre Hw. cbv zeta.
  assert (Hl : lookup_all (word2idx_of (wordlist mnemo)) (pre ++ w :: post)
               = Raise (KeyError w)).
  { apply lookup_all_first_missing; [|now apply word2idx_None].
    eapply Forall_impl; [exact Hpre|]. intros v. apply word2idx_is_Some. }
  unfold all_last_words_from_11, all_12word_mnemonics_from_11.
  rewrite Hlen. simpl negb. cbv iota zeta.
  unfold lookup_indices. rewrite Hl. split; reflexivity.
Qed.








(** C6, at the token [it's]. The wordlist does not have it; the error
    raised names the token with double quotes around it, which is not
    the token. *)
Theorem C6_quoted_token_misnamed (sha256 : list byte -> list byte)
    (mnemo : Mnemonic) (rest : list string) :
  length rest = 10%nat ->
  "it's" ∉ wordlist mnemo ->
  let named := String Py.dquote ("it's" +:+ String Py.dquote "") in
  all_last_words_from_11 sha256 mnemo ("it's" :: rest)
    = Raise (ValueError ("Word not in BIP39 English wordlist: '" +:+ named +:+ "'"))
  /\ named <> "it's".
Proof.
  intros Hlen Hw. cbv zeta. split; [|discriminate].
  destruct (unknown_word_raises sha256 mnemo [] rest "it's") as [H _];
    [simpl; now rewrite Hlen|constructor|exact Hw|].
  exact H.
Qed.

Lemma C6_witness :
  all_last_words_from_11 SHA256.sha256 demo_mnemo
    ("it's" :: replicate 10 (demo_word 0))
  = Raise (ValueError
             ("Word not in BIP39 English wordlist: '"
                +:+ String Py.dquote ("it's" +:+ String Py.dquote "") +:+ "'")).
Proof.
  apply (C6_quoted_token_misnamed SHA256.sha256 demo_mnemo
           (replicate 10 (demo_word 0))); [reflexivity|].
  intros Hin. unfold demo_mnemo, wordlist, demo_wordlist in Hin.
  apply list_elem_of_fmap in Hin as (i & Hi & _). discriminate Hi.
Defined.

Ltac dead Hb E lem :=
  injection Hb as ->; apply lem in E;
  first [discriminate E | destruct E as [? E]; discriminate E].

Lemma all_last_words_not_bits (sha256 : list byte -> list byte)
    (mnemo : Mnemonic) (words11 : list string) (idxs : list Z) :
  lookup_all (word2idx_of (wordlist mnemo)) words11 = Ok idxs ->
  length idxs = 11%nat -> Forall (fun i => 0 <= i < 2048) idxs ->
  all_last_words_from_11 sha256 mnemo words11 <> Raise (RuntimeError msg_bits).
Proof.
  intros Hidx Hl Hr Habs. unfold all_last_words_from_11 in Habs.
  destruct (negb _); [discriminate|]. cbv zeta in Habs.
  unfold lookup_indices in Habs. rewrite Hidx, bind_Ok in Habs.
  cbv beta in Habs. rewrite bits121_len, Hl in Habs by exact Hr.
  simpl negb in Habs. cbv iota in Habs.
  apply for_each_Raise in Habs as (st & tail & _ & Hb). cbv beta zeta in Hb.
  stage Hb; [|dead Hb E int_base2_raises].
  stage Hb; [|dead Hb E0 to_bytes_raises].
  stage Hb; [|dead Hb E1 (@getitem_raises byte)].
  stage Hb; [|dead Hb E2 (@getitem_raises string)].
  discriminate.
Qed.

Lemma all_12word_not_bits (sha256 : list byte -> list byte)
    (mnemo : Mnemonic) (words11 : list string) (idxs : list Z) :
  lookup_all (word2idx_of (wordlist mnemo)) words11 = Ok idxs ->
  length idxs = 11%nat -> Forall (fun i => 0 <= i < 2048) idxs ->
  all_12word_mnemonics_from_11 sha256 mnemo words11
    <> Raise (RuntimeError msg_bits).
Proof.
  intros Hidx Hl Hr Habs. unfold all_12word_mnemonics_from_11 in Habs.
  destruct (negb _); [discriminate|]. cbv zeta in Habs.
  unfold lookup_indices in Habs. rewrite Hidx, bind_Ok in Habs.
  cbv beta in Habs. rewrite bits121_len, Hl in Habs by exact Hr.
  simpl negb in Habs. cbv iota in Habs.
  apply for_each_Raise in Habs as (st & tail & _ & Hb). cbv beta zeta in Hb.
  stage Hb; [|dead Hb E int_base2_raises].
  stage Hb; [|dead Hb E0 to_bytes_raises].
  stage Hb; [|dead Hb E1 (@getitem_raises byte)].
  stage Hb; [|dead Hb E2 (@getitem_raises string)].
  destruct (negb _); discriminate.
Qed.

(** C7. Eleven indices in [0, 2047] give a bit string of exactly 121
    characters; so, whenever the index lookup of either file returns
    such indices, the internal-error branch is not taken. *)
Theorem C7_prefix_has_121_bits (idxs : list Z) :
  length idxs = 11%nat ->
  Forall (fun i => 0 <= i <= 2047) idxs ->
  Py.str_len (Py.join "" (Py.format_b 11 <$> idxs)) = 121%nat /\
  forall sha256 mnemo words11,
    lookup_all (word2idx_of (wordlist mnemo)) words11 = Ok idxs ->
    all_last_words_from_11 sha256 mnemo words11
      <> Raise (RuntimeError "Internal error: expected 121 bits from 11 words.")
    /\ all_12word_mnemonics_from_11 sha256 mnemo words11
      <> Raise (RuntimeError "Internal error: expected 121 bits from 11 words.").
Proof.
  intros Hl Hr.
  assert (Hr' : Forall (fun i => 0 <= i < 2048) idxs)
    by (eapply Forall_impl; [exact Hr|]; intros i Hi; simpl in Hi; lia).
  split; [rewrite bits121_len, Hl by exact Hr'; reflexivity|].
  intros sha256 mnemo words11 Hidx. split.
  - now apply (all_last_words_not_bits sha256 mnemo words11 idxs).
  - now apply (all_12word_not_bits sha256 mnemo words11 idxs).
Qed.

Lemma C7_witness :
  Py.str_len (Py.join "" (Py.format_b 11 <$> [0; 1; 2; 3; 4; 5; 6; 7; 8; 2046; 2047]))
  = 121%nat.
Proof.
  apply (C7_prefix_has_121_bits [0; 1; 2; 3; 4; 5; 6; 7; 8; 2046; 2047]);
    [reflexivity|].
  repeat (constructor; [lia|]). constructor.
Defined.



End Claims.

(** * Further properties of the code *)

(** ** The arguments of the command line *)

Section Arguments.

Lemma split_ws_go_cons (c : ascii) (s : string) (cur : list ascii) :
  Py.split_ws_go (String c s) cur =
  if Py.is_space c
  then match cur with
       | [] => Py.split_ws_go s []
       | _ => string_of_list_ascii (rev cur) :: Py.split_ws_go s []
       end
  else Py.split_ws_go s (c :: cur).
Proof. destruct cur; reflexivity. Qed.

Lemma split_ws_go_nil (cur : list ascii) :
  Py.split_ws_go "" cur =
  match cur with
  | [] => []
  | _ => [string_of_list_ascii (rev cur)]
  end.
Proof. destruct cur; reflexivity. Qed.

Lemma has_space_cons (c : ascii) (w : string) :
  has_space (String c w) = Py.is_space c || has_space w.
Proof. reflexivity. Qed.

Lemma split_ws_go_word (w s : string) (cur : list ascii) :
  has_space w = false ->
  Py.split_ws_go (w +:+ s) cur =
  Py.split_ws_go s (rev (list_ascii_of_string w) ++ cur).
Proof.
  revert cur. induction w as [|c w IH]; intros cur Hw; [reflexivity|].
  rewrite has_space_cons in Hw. apply orb_false_elim in Hw as [Hc Hw].
  rewrite app_cons, split_ws_go_cons, Hc, IH by exact Hw.
  simpl list_ascii_of_string. simpl rev. now rewrite <- app_assoc.
Qed.

Lemma token_parts (w : string) :
  is_token w = true -> w <> "" /\ has_space w = false.
Proof.
  destruct w as [|c w]; [discriminate|]. intros H. split; [discriminate|].
  unfold is_token in H. now apply negb_true_iff in H.
Qed.

Lemma rev_chars_token (w : string) :
  w <> "" ->
  exists c l, rev (list_ascii_of_string w) = c :: l /\
              string_of_list_ascii (rev (c :: l)) = w.
Proof.
  intros Hne. destruct (rev (list_ascii_of_string w)) as [|c l] eqn:E.
  - exfalso. apply Hne. apply (f_equal (@rev ascii)) in E.
    rewrite rev_involutive in E. simpl in E.
    rewrite <- (string_of_list_ascii_of_string w), E. reflexivity.
  - exists c, l. split; [reflexivity|].
    rewrite <- E, rev_involutive. apply string_of_list_ascii_of_string.
Qed.

(** Tokens joined with single spaces split back into the same tokens. *)
Lemma split_ws_join (ws : list string) :
  Forall (fun w => is_token w = true) ws ->
  Py.split_ws (Py.join " " ws) = ws.
Proof.
  unfold Py.split_ws. induction 1 as [|w ws Hw Hws IH]; [reflexivity|].
  destruct (token_parts w Hw) as [Hne Hns].
  destruct (rev_chars_token w Hne) as (c & l & Hr & Hs).
  destruct ws as [|w' ws].
  - simpl Py.join. rewrite <- (app_empty_r w) at 1.
    rewrite split_ws_go_word, app_nil_r, Hr by exact Hns.
    rewrite split_ws_go_nil. cbv iota. now rewrite Hs.
  - change (Py.join " " (w :: w' :: ws))
      with (w +:+ " " +:+ Py.join " " (w' :: ws)).
    rewrite split_ws_go_word, app_nil_r, Hr by exact Hns.
    rewrite app_cons, app_empty_l, split_ws_go_cons.
    change (Py.is_space " ") with true. cbv iota. rewrite Hs, IH. reflexivity.
Qed.

Lemma normalize_tokens (ws : list string) :
  Forall (fun w => is_token w = true) ws -> normalize_words_arg ws = ws.
Proof.
  intros H. unfold normalize_words_arg.
  destruct ws as [|w [|w' ws]]; [reflexivity| |reflexivity].
  simpl. apply (split_ws_join [w] H).
Qed.

Lemma normalize_quoted (ws : list string) :
  Forall (fun w => is_token w = true) ws ->
  normalize_words_arg [Py.join " " ws] = ws.
Proof. intros H. unfold normalize_words_arg. simpl. now apply split_ws_join. Qed.

Lemma ascii_tokens_are_tokens (ws : list string) :
  Forall (fun w => ascii_token w = true) ws ->
  Forall (fun w => is_token w = true) ws.
Proof.
  intros H. eapply Forall_impl; [exact H|]. intros w Hw. simpl in Hw.
  unfold ascii_token in Hw. now apply andb_prop in Hw as [Hw _].
Qed.

(** X1. The two ways of passing the words agree for the sibling, whose
    [main] reads the command line itself: one quoted argument that holds
    ASCII tokens separated by single spaces is normalised to the same
    list as the tokens passed one by one, by [normalize_words_arg] of
    either file, so the sibling's [main] ends the same on both command
    lines. *)
Theorem X1_quoted_argument_same_as_separate (sha256 : list byte -> list byte)
    (english : Mnemonic) (ws : list string) :
  ws <> [] ->
  Forall (fun w => ascii_token w = true) ws ->
  normalize_words_arg [Py.join " " ws] = ws /\
  normalize_words_arg ws = ws /\
  tools_main sha256 english [Py.join " " ws] = tools_main sha256 english ws.
Proof.
  intros Hne Ha. pose proof (ascii_tokens_are_tokens ws Ha) as H.
  pose proof (normalize_quoted ws H) as Hq.
  pose proof (normalize_tokens ws H) as Hs.
  split; [exact Hq|]. split; [exact Hs|].
  unfold tools_main. destruct ws as [|w ws]; [congruence|].
  cbv zeta. now rewrite Hq, Hs.
Qed.

Lemma X1_witness :
  normalize_words_arg ["abandon ability able"] = ["abandon"; "ability"; "able"].
Proof.
  destruct (X1_quoted_argument_same_as_separate SHA256.sha256 demo_mnemo
              ["abandon"; "ability"; "able"] ltac:(discriminate)
              ltac:(repeat constructor)) as [H _].
  exact H.
Defined.

End Arguments.

(** ** What [main] prints *)

Section MainOutcomes.






Lemma valid_candidates_first (pre post : list candidate) (c : candidate) :
  Forall (fun x => cand_ok x = false) pre -> cand_ok c = true ->
  valid_candidates (pre ++ c :: post) = c :: valid_candidates post.
Proof.
  intros Hpre Hc. unfold valid_candidates. rewrite filter_app.
  fold (valid_candidates pre). rewrite (valid_candidates_none pre Hpre).
  now rewrite filter_cons_True by exact Hc.
Qed.

(** X4. Whatever [check] answers, when the enumeration succeeds and at
    least one candidate is valid, [main] reports the valid candidate of
    lowest tail and no other: its word, tail and index on the first
    line, the eleven words followed by its word on the second; it
    prints nothing on the error stream and returns normally. *)
Theorem X4_main_reports_lowest_valid_tail (sha256 : list byte -> list byte)
    (english : Mnemonic) (args : list string) (pre post : list candidate)
    (c : candidate) :
  all_last_words_from_11 sha256 english (normalize_words_arg args)
    = Ok (pre ++ c :: post) ->
  Forall (fun x => cand_ok x = false) pre ->
  cand_ok c = true ->
  main sha256 english args =
    {| stdout :=
         ["Valid 12th word: " +:+ cand_word c
            +:+ " (tail=" +:+ Py.str_of_Z (cand_tail c)
            +:+ ", index=" +:+ Py.str_of_Z (cand_index c) +:+ ")";
          "Full mnemonic: " +:+ cand_phrase (normalize_words_arg args) c];
       stderr := [];
       ended := Returned None |}.
Proof.
  intros Hout Hpre Hc. unfold main. cbv zeta. rewrite Hout.
  change (filter (fun x => cand_ok x = true) ?l) with (valid_candidates l).
  rewrite (valid_candidates_first pre post c Hpre Hc).
  destruct c as [[[tail idx] w12] ok]. reflexivity.
Qed.

Lemma X4_witness :
  ended (main SHA256.sha256 demo_mnemo demo_words11) = Returned None.
Proof.
  destruct (enumerate_valid SHA256.sha256 sha256_is_hash demo_mnemo
              demo_wordlist_reference demo_check demo_words11
              demo_words11_valid) as (idxs & _ & Hout & Hv).
  rewrite (X4_main_reports_lowest_valid_tail SHA256.sha256 demo_mnemo
             demo_words11 []
             (spec_candidate SHA256.sha256 demo_mnemo demo_words11 idxs
                <$> (Z.of_nat <$> seq 1 127))
             (spec_candidate SHA256.sha256 demo_mnemo demo_words11 idxs 0)).
  - reflexivity.
  - exact Hout.
  - constructor.
  - apply (Hv 0). lia.
Defined.

(** X5. Whatever [check] answers, when the enumeration succeeds and no
    candidate is valid, [main] prints nothing on either stream and ends
    with the [IndexError] of [valid[0]], which nothing catches. *)
Theorem X5_main_without_valid_candidate (sha256 : list byte -> list byte)
    (english : Mnemonic) (args : list string) (out : list candidate) :
  all_last_words_from_11 sha256 english (normalize_words_arg args) = Ok out ->
  Forall (fun x => cand_ok x = false) out ->
  main sha256 english args =
    {| stdout := []; stderr := []; ended := Uncaught IndexError |}.
Proof.
  intros Hout Hnone. unfold main. cbv zeta. rewrite Hout.
  change (filter (fun x => cand_ok x = true) ?l) with (valid_candidates l).
  rewrite (valid_candidates_none out Hnone). reflexivity.
Qed.

Lemma X5_witness :
  ended (main SHA256.sha256 deaf_mnemo demo_words11) = Uncaught IndexError.
Proof.
  destruct demo_words11_valid as [Hlen Hin].
  destruct (enumerate_ok SHA256.sha256 sha256_is_hash deaf_mnemo
              (ref_len _ demo_wordlist_reference) demo_words11 Hlen Hin)
    as (idxs & _ & _ & _ & Hout).
  rewrite (X5_main_without_valid_candidate SHA256.sha256 deaf_mnemo
             demo_words11 _ Hout).
  - reflexivity.
  - apply Forall_fmap, Forall_forall. intros tail _. reflexivity.
Defined.

End MainOutcomes.

(** ** The sibling returns every phrase or none *)

Section SiblingOutcome.

(** A loop whose passes append one item when a test holds and raise
    when it fails returns the items if the test holds throughout, and
    raises otherwise. *)
Lemma for_each_first_raise {A B} (body : list B -> A -> result (list B))
    (g : A -> B) (test : A -> bool) (e : exn) (l : list A) (out : list B) :
  (forall out' a, a ∈ l ->
     body out' a = if test a then Ok (out' ++ [g a]) else Raise e) ->
  for_each body out l =
  if forallb test l then Ok (out ++ (g <$> l)) else Raise e.
Proof.
  revert out. induction l as [|a l IH]; intros out Hbody.
  - simpl. now rewrite app_nil_r.
  - change (for_each body out (a :: l))
      with (body out a ≫= fun st' => for_each body st' l).
    change (forallb test (a :: l)) with (test a && forallb test l).
    rewrite Hbody by apply list_elem_of_here.
    destruct (test a); [|reflexivity].
    rewrite bind_Ok, IH.
    + simpl andb. destruct (forallb test l); [|reflexivity].
      rewrite fmap_cons. now rewrite <- app_assoc.
    + intros out' a' Hin. apply Hbody. now apply list_elem_of_further.
Qed.

Lemma forallb_fmap {A B} (f : B -> bool) (g : A -> B) (l : list A) :
  forallb f (g <$> l) = forallb (fun a => f (g a)) l.
Proof.
  induction l as [|a l IH]; [reflexivity|]. rewrite fmap_cons.
  change (forallb f (g a :: (g <$> l))) with (f (g a) && forallb f (g <$> l)).
  rewrite IH. reflexivity.
Qed.

(** X6. On eleven words of the wordlist, whatever [check] answers, the
    sibling returns the phrases of the 128 candidates of
    [all_last_words_from_11], in the same order, exactly when every
    candidate is valid; if one is not, it raises its self-check error
    and returns no phrase at all. *)
Theorem X6_sibling_all_or_nothing (sha256 : list byte -> list byte)
    (english : Mnemonic) (words11 : list string) :
  is_hash sha256 ->
  length (wordlist english) = 2048%nat ->
  valid_words11 (wordlist english) words11 ->
  exists out,
    all_last_words_from_11 sha256 english words11 = Ok out /\
    all_12word_mnemonics_from_11 sha256 english words11 =
      if forallb cand_ok out
      then Ok (cand_phrase words11 <$> out)
      else Raise (RuntimeError
                    "Unexpected: generated mnemonic failed BIP39 check.").
Proof.
  intros Hsha Hwl [Hlen Hin].
  destruct (enumerate_ok sha256 Hsha english Hwl words11 Hlen Hin)
    as (idxs & Hidx & Hl & Hr & Hout).
  exists (spec_candidate sha256 english words11 idxs <$> Py.range 128).
  split; [exact Hout|].
  rewrite forallb_fmap, <- list_fmap_compose.
  unfold all_12word_mnemonics_from_11. rewrite Hlen. simpl negb. cbv iota zeta.
  unfold lookup_indices. step Hidx.
  rewrite bits121_len, Hl by exact Hr. simpl negb. cbv iota.
  rewrite (for_each_first_raise _
             (fun tail => cand_phrase words11
                            (spec_candidate sha256 english words11 idxs tail))
             (fun tail => cand_ok
                            (spec_candidate sha256 english words11 idxs tail))
             (RuntimeError msg_check)); [reflexivity|].
  intros out tail Ht. apply elem_of_range in Ht.
  destruct (entropy_bytes idxs tail Hl Hr ltac:(lia)) as (n & Hn & Hb).
  step Hn. step Hb.
  destruct (digest_first sha256 Hsha
              (Spec.pack_bytes 16 (Spec.entropy_bits (Spec.bit_packer idxs) tail)))
    as (d0 & Hd & Hc).
  step Hd. rewrite Hc.
  change (Z.lor (Z.shiftl tail 4) _) with (spec_index sha256 idxs tail).
  destruct (wordlist_getitem english Hwl (spec_index sha256 idxs tail))
    as [Hw _]; [apply spec_index_range; lia|].
  step Hw.
  unfold spec_candidate, cand_ok, cand_phrase, cand_word, spec_phrase. simpl.
  destruct (check english _); reflexivity.
Qed.

Lemma X6_witness :
  all_12word_mnemonics_from_11 SHA256.sha256 deaf_mnemo demo_words11
  = Raise (RuntimeError "Unexpected: generated mnemonic failed BIP39 check.").
Proof.
  destruct (X6_sibling_all_or_nothing SHA256.sha256 deaf_mnemo demo_words11
              sha256_is_hash (ref_len _ demo_wordlist_reference)
              demo_words11_valid) as (out & Hout & Hsib).
  destruct demo_words11_valid as [Hlen Hin].
  destruct (enumerate_ok SHA256.sha256 sha256_is_hash deaf_mnemo
              (ref_len _ demo_wordlist_reference) demo_words11 Hlen Hin)
    as (idxs & _ & _ & _ & Hout').
  rewrite Hout' in Hout. injection Hout as <-.
  rewrite Hsib. reflexivity.
Defined.

End SiblingOutcome.

(** ** The 128 last words *)

Section LastWords.

Variable sha256 : list byte -> list byte.
Variable wl : list string.
Hypothesis wl_ok : reference_wordlist wl.

Lemma spec_index_tail (idxs : list Z) (tail : Z) :
  Z.shiftr (spec_index sha256 idxs tail) 4 = tail.
Proof. unfold spec_index. apply last_word_index_tail, checksum_range. Qed.

Lemma spec_index_block (idxs : list Z) (tail : Z) :
  16 * tail <= spec_index sha256 idxs tail <= 16 * tail + 15.
Proof.
  unfold spec_index.
  pose proof (checksum_range sha256
                (Spec.entropy_bits (Spec.bit_packer idxs) tail)) as Hc.
  rewrite last_word_index_add by exact Hc. lia.
Qed.

Lemma spec_word_lookup (idxs : list Z) (tail : Z) :
  0 <= tail < 128 ->
  wl !! Z.to_nat (spec_index sha256 idxs tail)
  = Some (spec_word wl (spec_index sha256 idxs tail)).
Proof.
  intros Ht. pose proof (spec_index_block idxs tail) as Hb. unfold spec_word.
  destruct (lookup_lt_is_Some_2 wl (Z.to_nat (spec_index sha256 idxs tail)))
    as [w Hw]; [rewrite (ref_len _ wl_ok); lia|].
  now rewrite Hw.
Qed.

(** Different tails give different last words. *)
Lemma spec_word_inj (idxs : list Z) (t1 t2 : Z) :
  0 <= t1 < 128 -> 0 <= t2 < 128 ->
  spec_word wl (spec_index sha256 idxs t1)
  = spec_word wl (spec_index sha256 idxs t2) ->
  t1 = t2.
Proof.
  intros H1 H2 Heq.
  pose proof (spec_word_lookup idxs t1 H1) as L1.
  pose proof (spec_word_lookup idxs t2 H2) as L2.
  rewrite Heq in L1.
  pose proof (NoDup_lookup wl _ _ _ (ref_nodup _ wl_ok) L1 L2) as Hi.
  pose proof (spec_index_block idxs t1). pose proof (spec_index_block idxs t2).
  lia.
Qed.

End LastWords.

Section DistinctWords.

(** X7. On eleven words of a reference wordlist, whatever [check]
    answers, the 128 candidates propose 128 different words at 128
    different indices: the candidate of tail [t] has its index in the
    block [16 t .. 16 t + 15] of the wordlist and its word is the entry
    at this index. *)
Theorem X7_candidates_are_distinct_words (sha256 : list byte -> list byte)
    (mnemo : Mnemonic) (words11 : list string) :
  is_hash sha256 ->
  reference_wordlist (wordlist mnemo) ->
  valid_words11 (wordlist mnemo) words11 ->
  exists out,
    all_last_words_from_11 sha256 mnemo words11 = Ok out /\
    NoDup (cand_index <$> out) /\
    NoDup (cand_word <$> out) /\
    Forall (fun c =>
              16 * cand_tail c <= cand_index c <= 16 * cand_tail c + 15 /\
              wordlist mnemo !! Z.to_nat (cand_index c) = Some (cand_word c))
           out.
Proof.
  intros Hsha Hwl [Hlen Hin].
  destruct (enumerate_ok sha256 Hsha mnemo (ref_len _ Hwl) words11 Hlen Hin)
    as (idxs & _ & _ & _ & Hout).
  exists (spec_candidate sha256 mnemo words11 idxs <$> Py.range 128).
  split; [exact Hout|]. split; [|split].
  - rewrite <- list_fmap_compose.
    apply NoDup_fmap_2_strong; [|apply range_NoDup].
    intros t1 t2 _ _ Heq. unfold spec_candidate, cand_index in Heq. simpl in Heq.
    rewrite <- (spec_index_tail sha256 idxs t1), Heq.
    apply spec_index_tail.
  - rewrite <- list_fmap_compose.
    apply NoDup_fmap_2_strong; [|apply range_NoDup].
    intros t1 t2 H1 H2 Heq. apply elem_of_range in H1, H2.
    unfold spec_candidate, cand_word in Heq. simpl in Heq.
    apply (spec_word_inj sha256 (wordlist mnemo) Hwl idxs); [lia|lia|exact Heq].
  - apply Forall_fmap, Forall_forall. intros tail Ht. apply elem_of_range in Ht.
    unfold spec_candidate, cand_index, cand_word, cand_tail. simpl.
    split; [apply spec_index_block|].
    apply spec_word_lookup; [exact Hwl|simpl in Ht; lia].
Qed.

Lemma X7_witness :
  exists out,
    all_last_words_from_11 SHA256.sha256 deaf_mnemo demo_words11 = Ok out /\
    NoDup (cand_word <$> out).
Proof.
  destruct (X7_candidates_are_distinct_words SHA256.sha256 deaf_mnemo
              demo_words11 sha256_is_hash demo_wordlist_reference
              demo_words11_valid) as (out & Hout & _ & Hnd & _).
  exists out. split; [exact Hout|exact Hnd].
Defined.

Lemma phrase_last_word_inj (wl words11 : list string) (w1 w2 : string) :
  reference_wordlist wl -> Forall (fun w => w ∈ wl) words11 ->
  w1 ∈ wl -> w2 ∈ wl ->
  spec_phrase words11 w1 = spec_phrase words11 w2 -> w1 = w2.
Proof.
  intros Hwl Hin H1 H2 Heq. unfold spec_phrase in Heq.
  apply (f_equal (Py.split_on " ")) in Heq.
  rewrite !split_join in Heq.
  - now apply app_inj_1 in Heq as [_ [= ->]].
  - destruct words11; discriminate.
  - apply (nospace_of_elem wl (ref_nospace _ Hwl)), Forall_app.
    split; [exact Hin|]. constructor; [exact H2|constructor].
  - destruct words11; discriminate.
  - apply (nospace_of_elem wl (ref_nospace _ Hwl)), Forall_app.
    split; [exact Hin|]. constructor; [exact H1|constructor].
Qed.

(** X8. With the Validator for [check], on arguments that normalise to
    eleven words of the wordlist, [main] of the sibling prints 128
    different lines and returns 0: each line is the eleven words
    followed by one word of the wordlist, separated by single spaces,
    and is a phrase [check] accepts; nothing goes to the error
    stream. *)
Theorem X8_tools_main_prints_128_phrases (sha256 : list byte -> list byte)
    (english : Mnemonic) (argv : list string) :
  is_hash sha256 ->
  reference_wordlist (wordlist english) ->
  check_is_validator sha256 english ->
  valid_words11 (wordlist english) (normalize_words_arg argv) ->
  exists lines,
    tools_main sha256 english argv =
      {| stdout := lines; stderr := []; ended := Returned (Some 0) |} /\
    length lines = 128%nat /\
    NoDup lines /\
    Forall (fun line =>
              exists w,
                w ∈ wordlist english /\
                line = Py.join " " (normalize_words_arg argv ++ [w]) /\
                Py.split_on " " line = normalize_words_arg argv ++ [w] /\
                check english line = true)
           lines.
Proof.
  intros Hsha Hwl Hcheck Hw.
  destruct (enumerate_valid sha256 Hsha english Hwl Hcheck _ Hw)
    as (idxs & Hidx & _ & Hv).
  pose proof Hw as [Hlen Hin].
  pose proof (sibling_ok sha256 Hsha english (ref_len _ Hwl) _ idxs Hlen Hidx Hv)
    as Hsib.
  eexists. split; [|split; [|split]].
  - unfold tools_main. destruct argv as [|a argv]; [discriminate Hlen|].
    cbv zeta. rewrite Hsib. reflexivity.
  - now rewrite length_fmap, range_len.
  - apply NoDup_fmap_2_strong; [|apply range_NoDup].
    intros t1 t2 H1 H2 Heq. apply elem_of_range in H1, H2.
    apply (spec_word_inj sha256 (wordlist english) Hwl idxs); [lia|lia|].
    apply (phrase_last_word_inj (wordlist english) (normalize_words_arg argv));
      [exact Hwl|exact Hin| | |exact Heq];
      apply list_elem_of_lookup; eexists;
      apply (spec_word_lookup sha256 (wordlist english) Hwl); lia.
  - apply Forall_fmap, Forall_forall. intros tail Ht. apply elem_of_range in Ht.
    simpl in Ht. simpl.
    assert (Hel : spec_word (wordlist english) (spec_index sha256 idxs tail)
                  ∈ wordlist english).
    { apply list_elem_of_lookup. eexists.
      apply (spec_word_lookup sha256 (wordlist english) Hwl). lia. }
    exists (spec_word (wordlist english) (spec_index sha256 idxs tail)).
    split; [exact Hel|]. split; [reflexivity|]. split; [|apply Hv; lia].
    unfold spec_phrase. apply split_join.
    + destruct (normalize_words_arg argv); discriminate.
    + apply (nospace_of_elem (wordlist english) (ref_nospace _ Hwl)), Forall_app.
      split; [exact Hin|]. constructor; [exact Hel|constructor].
Qed.

Lemma X8_witness :
  exists lines,
    tools_main SHA256.sha256 demo_mnemo demo_words11 =
      {| stdout := lines; stderr := []; ended := Returned (Some 0) |} /\
    length lines = 128%nat.
Proof.
  destruct (X8_tools_main_prints_128_phrases SHA256.sha256 demo_mnemo
              demo_words11 sha256_is_hash demo_wordlist_reference demo_check
              demo_words11_valid) as (lines & Hmain & Hlen & _).
  exists lines. split; [exact Hmain|exact Hlen].
Defined.

End DistinctWords.

(** ** [check] only sets the flags *)

Section CheckIndependence.

Lemma for_each_core (body1 body2 : list candidate -> Z -> result (list candidate))
    (l : list Z) (out1 out2 : list candidate) :
  cand_core <$> out1 = cand_core <$> out2 ->
  (forall o1 o2 a,
     cand_core <$> o1 = cand_core <$> o2 ->
     result_map (fun o => cand_core <$> o) (body1 o1 a)
     = result_map (fun o => cand_core <$> o) (body2 o2 a)) ->
  result_map (fun o => cand_core <$> o) (for_each body1 out1 l)
  = result_map (fun o => cand_core <$> o) (for_each body2 out2 l).
Proof.
  intros Ho Hb. revert out1 out2 Ho.
  induction l as [|a l IH]; intros out1 out2 Ho.
  - simpl. now rewrite Ho.
  - change (for_each body1 out1 (a :: l))
      with (body1 out1 a ≫= fun st' => for_each body1 st' l).
    change (for_each body2 out2 (a :: l))
      with (body2 out2 a ≫= fun st' => for_each body2 st' l).
    specialize (Hb out1 out2 a Ho).
    destruct (body1 out1 a) as [o1|e1], (body2 out2 a) as [o2|e2];
      simpl in Hb; try discriminate Hb.
    + rewrite !bind_Ok. apply IH. now injection Hb.
    + rewrite !bind_Raise. exact Hb.
Qed.

(** X9. The answers of [check] reach nothing but the [ok] flags: two
    [Mnemonic] objects with the same wordlist, whatever their checks,
    give the same tails, indices and last words, in the same order, and
    the same exception when the enumeration fails. *)
Theorem X9_check_only_sets_the_flags (sha256 : list byte -> list byte)
    (m1 m2 : Mnemonic) (words11 : list string) :
  wordlist m1 = wordlist m2 ->
  result_map (fun out => cand_core <$> out)
    (all_last_words_from_11 sha256 m1 words11)
  = result_map (fun out => cand_core <$> out)
      (all_last_words_from_11 sha256 m2 words11).
Proof.
  intros Hwl. unfold all_last_words_from_11.
  destruct (negb _); [reflexivity|]. cbv zeta. rewrite Hwl.
  destruct (lookup_indices _ words11) as [idxs|e]; [|reflexivity].
  rewrite !bind_Ok. destruct (negb _); [reflexivity|].
  apply for_each_core; [reflexivity|].
  intros o1 o2 tail Ho. cbv zeta.
  destruct (Py.int_base2 _) as [n|e]; [|reflexivity]. rewrite !bind_Ok.
  destruct (Py.to_bytes 16 n) as [bytes|e]; [|reflexivity]. rewrite !bind_Ok.
  destruct (Py.getitem (sha256 bytes) 0) as [d0|e]; [|reflexivity].
  rewrite !bind_Ok.
  destruct (Py.getitem (wordlist m2) _) as [w|e]; [|reflexivity].
  rewrite !bind_Ok. simpl result_map. f_equal.
  rewrite !fmap_app, Ho. reflexivity.
Qed.

Lemma X9_witness :
  result_map (fun out => cand_core <$> out)
    (all_last_words_from_11 SHA256.sha256 demo_mnemo demo_words11)
  = result_map (fun out => cand_core <$> out)
      (all_last_words_from_11 SHA256.sha256 deaf_mnemo demo_words11).
Proof.
  exact (X9_check_only_sets_the_flags SHA256.sha256 demo_mnemo deaf_mnemo
           demo_words11 eq_refl).
Defined.

End CheckIndependence.

(** ** The internal error *)

Section InternalError.

Lemma size_nat_fits (p : positive) (w : nat) :
  (Pos.size_nat p <= w)%nat -> Z.pos p < 2 ^ Z.of_nat w.
Proof.
  revert w. induction p as [p IH|p IH|]; intros w Hs; simpl in Hs.
  - destruct w as [|w]; [lia|].
    rewrite Nat2Z.inj_succ, Z.pow_succ_r by lia.
    specialize (IH w ltac:(lia)). lia.
  - destruct w as [|w]; [lia|].
    rewrite Nat2Z.inj_succ, Z.pow_succ_r by lia.
    specialize (IH w ltac:(lia)). lia.
  - destruct w as [|w]; [lia|].
    rewrite Nat2Z.inj_succ, Z.pow_succ_r by lia.
    assert (0 < 2 ^ Z.of_nat w) by (apply Z.pow_pos_nonneg; lia). lia.
Qed.

(** The digits are never cut: an index is printed on at least 11
    characters, and on more when it is 2048 or above. *)
Lemma format_b_len_ge (n : Z) :
  0 <= n ->
  (11 <= Py.str_len (Py.format_b 11 n))%nat /\
  (2048 <= n -> (12 <= Py.str_len (Py.format_b 11 n))%nat).
Proof.
  intros Hn. unfold Py.format_b.
  destruct (Z.ltb_spec n 0) as [?|_]; [lia|].
  rewrite str_len_app, zeros_len. split; [lia|]. intros Hbig.
  destruct n as [|p|p]; [lia| |lia]. simpl Py.bin_digits.
  rewrite pos_bin_len.
  destruct (le_lt_dec (Pos.size_nat p) 11) as [Hs|Hs]; [|lia].
  apply size_nat_fits in Hs. simpl in Hs. lia.
Qed.

Lemma bits_len_ge (idxs : list Z) :
  Forall (fun i => 0 <= i) idxs ->
  (11 * length idxs <= Py.str_len (Py.join "" (Py.format_b 11 <$> idxs)))%nat /\
  (Exists (fun i => 2048 <= i) idxs ->
   (11 * length idxs < Py.str_len (Py.join "" (Py.format_b 11 <$> idxs)))%nat).
Proof.
  induction 1 as [|i idxs Hi _ [IH1 IH2]].
  - split; [simpl; lia|]. intros Hex. inversion Hex.
  - rewrite fmap_cons, join_empty_cons, str_len_app. simpl length.
    destruct (format_b_len_ge i Hi) as [H11 H12]. split; [lia|].
    intros Hex. apply Exists_cons in Hex as [Hbig|Hex].
    + specialize (H12 Hbig). lia.
    + specialize (IH2 Hex). lia.
Qed.

Lemma indices_nonneg (wl words : list string) (idxs : list Z) :
  lookup_all (word2idx_of wl) words = Ok idxs -> Forall (fun i => 0 <= i) idxs.
Proof.
  intros H. apply lookup_all_Ok in H.
  induction H as [|w i ws js Hw _ IH]; constructor; [|exact IH].
  apply word2idx_Some in Hw. lia.
Qed.

(** X10. The internal error is a live guard: when the wordlist has more
    than 2048 entries and one of the eleven words has its index at 2048
    or above, both files raise the internal error on the length of the
    bit string, before the loop. *)
Theorem X10_index_out_of_range_is_internal_error
    (sha256 : list byte -> list byte) (mnemo : Mnemonic)
    (words11 : list string) (idxs : list Z) :
  length words11 = 11%nat ->
  lookup_all (word2idx_of (wordlist mnemo)) words11 = Ok idxs ->
  Exists (fun i => 2048 <= i) idxs ->
  all_last_words_from_11 sha256 mnemo words11
    = Raise (RuntimeError "Internal error: expected 121 bits from 11 words.") /\
  all_12word_mnemonics_from_11 sha256 mnemo words11
    = Raise (RuntimeError "Internal error: expected 121 bits from 11 words.").
Proof.
  intros Hlen Hidx Hex.
  pose proof (indices_nonneg _ _ _ Hidx) as Hnn.
  assert (Hl : length idxs = 11%nat).
  { apply lookup_all_Ok, Forall2_length in Hidx. lia. }
  destruct (bits_len_ge idxs Hnn) as [_ Hlt]. specialize (Hlt Hex).
  rewrite Hl in Hlt.
  unfold all_last_words_from_11, all_12word_mnemonics_from_11.
  rewrite Hlen. simpl negb. cbv iota zeta.
  unfold lookup_indices. rewrite Hidx, !bind_Ok.
  destruct (Nat.eqb_spec (Py.str_len (Py.join "" (Py.format_b 11 <$> idxs))) 121)
    as [E|_]; [lia|].
  split; reflexivity.
Qed.

Lemma X10_witness :
  all_last_words_from_11 SHA256.sha256 long_mnemo
    (replicate 10 (demo_word 0) ++ [demo_word 2048])
  = Raise (RuntimeError "Internal error: expected 121 bits from 11 words.").
Proof.
  destruct (X10_index_out_of_range_is_internal_error SHA256.sha256 long_mnemo
              (replicate 10 (demo_word 0) ++ [demo_word 2048])
              (replicate 10 0 ++ [2048]) eq_refl) as [H _].
  - vm_compute. reflexivity.
  - apply Exists_app. right. constructor. lia.
  - exact H.
Defined.

End InternalError.

(** ** The dictionary of the wordlist *)

Section Dictionary.

(** X11. The dictionary built from the wordlist maps a word to the last
    position at which the list holds it, and has no entry exactly for
    the words the list does not hold; on a list without repeated words
    it is the inverse of the list. *)
Theorem X11_word2idx_is_last_position (wl : list string) (w : string) :
  (forall i,
     word2idx_of wl !! w = Some i <->
     0 <= i /\ wl !! Z.to_nat i = Some w /\
     forall j, (Z.to_nat i < j)%nat -> wl !! j <> Some w) /\
  (word2idx_of wl !! w = None <-> w ∉ wl) /\
  (NoDup wl ->
   forall k, word2idx_of wl !! w = Some (Z.of_nat k) <-> wl !! k = Some w).
Proof.
  split; [|split].
  - induction wl as [|x wl IH] using rev_ind; intros i.
    + unfold word2idx_of. simpl. rewrite lookup_empty.
      split; [discriminate|]. intros (_ & H & _). discriminate H.
    + rewrite word2idx_snoc. destruct (decide (x = w)) as [->|Hne].
      * rewrite lookup_insert_eq. split.
        -- intros [= <-]. rewrite Nat2Z.id. split; [lia|]. split.
           ++ rewrite lookup_app_r by lia. now rewrite Nat.sub_diag.
           ++ intros j Hj. rewrite lookup_ge_None_2; [discriminate|].
              rewrite length_app. simpl. lia.
        -- intros (Hi & Hl & Hlast). f_equal.
           pose proof (lookup_lt_Some _ _ _ Hl) as Hlt.
           rewrite length_app in Hlt. simpl in Hlt.
           destruct (decide (Z.to_nat i = length wl)) as [E|E]; [lia|].
           exfalso. apply (Hlast (length wl)); [lia|].
           rewrite lookup_app_r by lia. now rewrite Nat.sub_diag.
      * rewrite lookup_insert_ne by exact Hne. rewrite IH. split.
        -- intros (Hi & Hl & Hlast). split; [exact Hi|].
           pose proof (lookup_lt_Some _ _ _ Hl) as Hlt. split.
           ++ rewrite lookup_app_l by exact Hlt. exact Hl.
           ++ intros j Hj. destruct (decide (j < length wl)%nat) as [Hjl|Hjl].
              ** rewrite lookup_app_l by exact Hjl. now apply Hlast.
              ** destruct (decide (j = length wl)) as [->|Hjn].
                 --- rewrite lookup_app_r by lia. rewrite Nat.sub_diag. simpl.
                     congruence.
                 --- rewrite lookup_ge_None_2; [discriminate|].
                     rewrite length_app. simpl. lia.
        -- intros (Hi & Hl & Hlast). split; [exact Hi|].
           assert (Hlt : (Z.to_nat i < length wl)%nat).
           { pose proof (lookup_lt_Some _ _ _ Hl) as Hlt.
             rewrite length_app in Hlt. simpl in Hlt.
             destruct (decide (Z.to_nat i = length wl)) as [E|E]; [|lia].
             rewrite E, lookup_app_r, Nat.sub_diag in Hl by lia.
             simpl in Hl. congruence. }
           split.
           ++ rewrite lookup_app_l in Hl by exact Hlt. exact Hl.
           ++ intros j Hj Hjw. apply (Hlast j Hj).
              rewrite lookup_app_l; [exact Hjw|].
              apply (lookup_lt_Some _ _ _ Hjw).
  - apply word2idx_None.
  - intros Hnd k. split.
    + intros H. apply word2idx_Some in H as [_ H].
      now rewrite Nat2Z.id in H.
    + now apply word2idx_nodup.
Qed.

End Dictionary.

(** ** Every outcome of the enumeration *)

Section Outcomes.

Variable sha256 : list byte -> list byte.
Hypothesis sha256_ok : is_hash sha256.
Variable mnemo : Mnemonic.
Hypothesis wordlist_len : length (wordlist mnemo) = 2048%nat.



End Outcomes.

Section OutcomesTheorems.



End OutcomesTheorems.

(** ** Every run of the two commands *)

Section Runs.

Variable sha256 : list byte -> list byte.
Hypothesis sha256_ok : is_hash sha256.
Variable english : Mnemonic.
Hypothesis wl_ok : reference_wordlist (wordlist english).
Hypothesis check_ok : check_is_validator sha256 english.




End Runs.

Section RunsTheorems.





End RunsTheorems.

(** ** The tokens of a quoted argument *)

Section Tokens.

Lemma has_space_chars (l : list ascii) :
  Forall (fun c => Py.is_space c = false) l ->
  has_space (string_of_list_ascii l) = false.
Proof.
  induction 1 as [|d l Hd _ IH]; [reflexivity|].
  simpl string_of_list_ascii. rewrite has_space_cons, Hd. exact IH.
Qed.

Lemma chars_token (l : list ascii) :
  l <> [] -> Forall (fun c => Py.is_space c = false) l ->
  is_token (string_of_list_ascii l) = true.
Proof.
  intros Hne Hl. pose proof (has_space_chars l Hl) as Hs.
  destruct l as [|c l]; [congruence|].
  simpl string_of_list_ascii in *. unfold is_token. now rewrite Hs.
Qed.

Lemma split_ws_go_tokens (s : string) (cur : list ascii) :
  Forall (fun c => Py.is_space c = false) cur ->
  Forall (fun w => is_token w = true) (Py.split_ws_go s cur).
Proof.
  revert cur. induction s as [|c s IH]; intros cur Hcur.
  - rewrite split_ws_go_nil. destruct cur as [|d cur]; constructor; [|constructor].
    apply chars_token; [|now apply Forall_rev].
    intros E. apply (f_equal (@length ascii)) in E.
    rewrite length_rev in E. discriminate E.
  - rewrite split_ws_go_cons. destruct (Py.is_space c) eqn:Hc.
    + destruct cur as [|d cur]; [apply IH; constructor|].
      constructor; [|apply IH; constructor].
      apply chars_token; [|now apply Forall_rev].
      intros E. apply (f_equal (@length ascii)) in E.
      rewrite length_rev in E. discriminate E.
    + apply IH. now constructor.
Qed.

(** X15. A single argument is cut into tokens: no word that comes out
    of [normalize_words_arg] on one argument is empty or holds
    whitespace, whatever the argument (an empty or blank one gives no
    word).  So normalising twice is the same as normalising once, for
    any arguments. *)
Theorem X15_single_argument_yields_tokens :
  (forall s, Forall (fun w => is_token w = true) (normalize_words_arg [s])) /\
  (forall args,
     normalize_words_arg (normalize_words_arg args) = normalize_words_arg args).
Proof.
  assert (Ht : forall s,
             Forall (fun w => is_token w = true) (normalize_words_arg [s])).
  { intros s. unfold normalize_words_arg. simpl.
    apply split_ws_go_tokens. constructor. }
  split; [exact Ht|].
  intros args. destruct args as [|a [|b args]]; [reflexivity| |reflexivity].
  apply normalize_tokens, Ht.
Qed.

End Tokens.
